(** * The GraphQL query builder (utils/query-builder.js)

    A shallow embedding of the query-builder core of the MCP server:
    the resolver registry, the value-to-literal serializer
    [toGraphQLLiteral], the aggregation block builder
    [buildAggregationBlock] and the assembler [buildQuery], followed by
    the properties the specification states about them. *)

From Stdlib Require Import ZArith List Bool Ascii String Lia.
From Stdlib Require Import Numbers.DecimalString Numbers.DecimalPos Numbers.DecimalZ.
Import ListNotations.
Open Scope list_scope.
Open Scope string_scope.
Set Warnings "-register-all".

(** ** JavaScript values

    The parameter bags handed to the builder are JSON-like: [null],
    booleans, numbers, strings, arrays and plain objects, plus
    [undefined] for an absent property.  A string is the sequence of
    the bytes of its UTF-8 encoding.  A number is an integer (page
    sizes, years, amounts); [String(n)] is the plain decimal numeral
    for the safe integers, below 2^53 in absolute value, and what is
    stated on the text of a number is stated for these.  An object is
    the sequence [Object.entries] enumerates, in that order. *)

Inductive value : Type :=
| VUndefined
| VNull
| VNumber (n : Z)
| VBoolean (b : bool)
| VString (s : string)
| VArray (items : list value)
| VObject (entries : list (string * value)).

(** Structural induction that reaches inside arrays and objects. *)
Section value_induction.
Variable P : value -> Prop.
Hypothesis P_undefined : P VUndefined.
Hypothesis P_null : P VNull.
Hypothesis P_number : forall n, P (VNumber n).
Hypothesis P_boolean : forall b, P (VBoolean b).
Hypothesis P_string : forall s, P (VString s).
Hypothesis P_array : forall items, Forall P items -> P (VArray items).
Hypothesis P_object :
  forall entries, Forall (fun kv => P (snd kv)) entries -> P (VObject entries).

Fixpoint value_nested_ind (v : value) : P v :=
  match v with
  | VUndefined => P_undefined
  | VNull => P_null
  | VNumber n => P_number n
  | VBoolean b => P_boolean b
  | VString s => P_string s
  | VArray items =>
      P_array items
        ((fix all (l : list value) : Forall P l :=
            match l with
            | [] => Forall_nil _
            | x :: r => Forall_cons _ (value_nested_ind x) (all r)
            end) items)
  | VObject entries =>
      P_object entries
        ((fix all (l : list (string * value)) : Forall (fun kv => P (snd kv)) l :=
            match l with
            | [] => Forall_nil _
            | kv :: r =>
                Forall_cons (P := fun kv => P (snd kv)) kv
                  (value_nested_ind (snd kv)) (all r)
            end) entries)
  end.
End value_induction.

(** ** Built-ins the builder calls *)

Definition LF : string := String (ascii_of_nat 10) "".
Definition DQUOTE : string := String (ascii_of_nat 34) "".
Definition BACKSLASH : string := String (ascii_of_nat 92) "".

(** [Array.prototype.join] on an array of strings. *)
Fixpoint join (sep : string) (l : list string) : string :=
  match l with
  | [] => ""
  | [x] => x
  | x :: rest => x ++ sep ++ join sep rest
  end.

(** [Array.prototype.includes] on an array of strings. *)
Definition includes (l : list string) (x : string) : bool :=
  existsb (String.eqb x) l.

(** [String(n)] for a safe integer [n]: its decimal numeral.  From
    1e21 on the source writes an exponent, and numbers that are not
    integers have no counterpart here. *)
Definition String_of_number (n : Z) : string :=
  NilZero.string_of_int (Z.to_int n).

(** [String(b)] for a boolean. *)
Definition String_of_boolean (b : bool) : string :=
  if b then "true" else "false".

Definition hex_digit (n : nat) : ascii :=
  if Nat.ltb n 10 then ascii_of_nat (48 + n) else ascii_of_nat (87 + n).

(** One character of [JSON.stringify] on a string (QuoteJSONString):
    the two-character escapes, [\u00xx] for the other control
    characters, the character itself otherwise. *)
Definition quote_char (c : ascii) : string :=
  let n := nat_of_ascii c in
  if Nat.eqb n 8 then BACKSLASH ++ "b"
  else if Nat.eqb n 9 then BACKSLASH ++ "t"
  else if Nat.eqb n 10 then BACKSLASH ++ "n"
  else if Nat.eqb n 12 then BACKSLASH ++ "f"
  else if Nat.eqb n 13 then BACKSLASH ++ "r"
  else if Nat.eqb n 34 then BACKSLASH ++ DQUOTE
  else if Nat.eqb n 92 then BACKSLASH ++ BACKSLASH
  else if Nat.ltb n 32 then
    BACKSLASH ++ "u00" ++ String (hex_digit (n / 16)) (String (hex_digit (n mod 16)) "")
  else String c "".

Fixpoint json_escape (s : string) : string :=
  match s with
  | EmptyString => ""
  | String c r => quote_char c ++ json_escape r
  end.

(** [JSON.stringify(s)] for a string [s]. *)
Definition JSON_stringify (s : string) : string :=
  DQUOTE ++ json_escape s ++ DQUOTE.

(** ** The literal serializer *)

(** GraphQL enum values, written without quotes in a query. *)
Definition GRAPHQL_ENUMS : list string := ["ASC"; "DESC"].

(** [GRAPHQL_ENUMS.has(value)]. *)
Definition GRAPHQL_ENUMS_has (s : string) : bool := includes GRAPHQL_ENUMS s.

Fixpoint toGraphQLLiteral (v : value) : string :=
  match v with
  | VNull | VUndefined => "null"
  | VNumber n => String_of_number n
  | VBoolean b => String_of_boolean b
  | VString s => if GRAPHQL_ENUMS_has s then s else JSON_stringify s
  | VArray items => "[" ++ join ", " (map toGraphQLLiteral items) ++ "]"
  | VObject entries =>
      "{ " ++ join ", " (map (fun kv => fst kv ++ ": " ++ toGraphQLLiteral (snd kv)) entries)
           ++ " }"
  end.

(** ** The resolver registry *)

Module Config.
Record t : Type := mk {
  queryName : string;
  fields : list string;
  numericFields : list string;
  scalarFieldsEnum : string;
  numericAggregateEnum : string;
  filterInputType : string;
  orderByInputType : string;
  description : string
}.
End Config.

Definition UNION_REF_HSCODE : Config.t := {|
  Config.queryName := "uNION_REF_HSCODEs";
  Config.fields := ["Report_ID"; "Industry_ID"; "Industry"; "HS_Code_Group"; "HS_Code";
                    "HS_Code_ZH"; "Unit_Name"; "Unit"];
  Config.numericFields := ["Industry_ID"];
  Config.scalarFieldsEnum := "UNION_REF_HSCODEScalarFields";
  Config.numericAggregateEnum := "UNION_REF_HSCODENumericAggregateFields";
  Config.filterInputType := "UNION_REF_HSCODEFilterInput";
  Config.orderByInputType := "UNION_REF_HSCODEOrderByInput";
  Config.description := "HS Code 參考資料表 - 包含產業分類、HS Code 對照、中文品名等"
|}.

Definition trade_monthly_by_code_country : Config.t := {|
  Config.queryName := "trade_monthly_by_code_countries";
  Config.fields := ["PERIOD_MONTH"; "YEAR"; "MONTH"; "TRADE_FLOW"; "HS_CODE"; "HS_CODE_ZH";
                    "COUNTRY_ID"; "COUNTRY_COMM_ZH"; "TRADE_VALUE_USD_AMT";
                    "TRADE_VALUE_TWD_AMT"; "TRADE_WEIGHT"; "TRADE_QUANT";
                    "UNIT_PRICE_USD_PER_KG"; "ETL_DT"];
  Config.numericFields := ["YEAR"; "MONTH"; "TRADE_VALUE_USD_AMT"; "TRADE_VALUE_TWD_AMT";
                           "TRADE_WEIGHT"; "TRADE_QUANT"; "UNIT_PRICE_USD_PER_KG"];
  Config.scalarFieldsEnum := "trade_monthly_by_code_countryScalarFields";
  Config.numericAggregateEnum := "trade_monthly_by_code_countryNumericAggregateFields";
  Config.filterInputType := "trade_monthly_by_code_countryFilterInput";
  Config.orderByInputType := "trade_monthly_by_code_countryOrderByInput";
  Config.description := "按 HS Code 與國家的月度貿易統計 - 細到單一貨品代碼層級"
|}.

Definition trade_monthly_by_group_country : Config.t := {|
  Config.queryName := "trade_monthly_by_group_countries";
  Config.fields := ["PERIOD_MONTH"; "YEAR"; "MONTH"; "TRADE_FLOW"; "INDUSTRY_ID"; "INDUSTRY";
                    "HS_CODE_GROUP"; "COUNTRY_ID"; "COUNTRY_COMM_ZH"; "AREA_ID"; "AREA_NM";
                    "TRADE_VALUE_USD_AMT"; "TRADE_VALUE_TWD_AMT"; "TRADE_WEIGHT";
                    "TRADE_QUANT"; "UNIT_PRICE_USD_PER_KG"; "ETL_DT"];
  Config.numericFields := ["YEAR"; "MONTH"; "INDUSTRY_ID"; "TRADE_VALUE_USD_AMT";
                           "TRADE_VALUE_TWD_AMT"; "TRADE_WEIGHT"; "TRADE_QUANT";
                           "UNIT_PRICE_USD_PER_KG"];
  Config.scalarFieldsEnum := "trade_monthly_by_group_countryScalarFields";
  Config.numericAggregateEnum := "trade_monthly_by_group_countryNumericAggregateFields";
  Config.filterInputType := "trade_monthly_by_group_countryFilterInput";
  Config.orderByInputType := "trade_monthly_by_group_countryOrderByInput";
  Config.description := "按產業群組與國家的月度貿易統計 - 含產業分類與地區歸屬"
|}.

Definition UNION_REF_COUNTRY_AREA : Config.t := {|
  Config.queryName := "uNION_REF_COUNTRY_AREAs";
  Config.fields := ["ISO3"; "COUNTRY_COMM_ZH"; "COUNTRY_COMM_EN"; "AREA_ID"; "AREA_NM"; "ROW";
                    "AREA_sort"];
  Config.numericFields := ["ROW"; "AREA_sort"];
  Config.scalarFieldsEnum := "UNION_REF_COUNTRY_AREAScalarFields";
  Config.numericAggregateEnum := "UNION_REF_COUNTRY_AREANumericAggregateFields";
  Config.filterInputType := "UNION_REF_COUNTRY_AREAFilterInput";
  Config.orderByInputType := "UNION_REF_COUNTRY_AREAOrderByInput";
  Config.description := "國家/地區參考資料表 - 包含 ISO3 代碼、中英文國名、所屬地區"
|}.

Definition TXN_MOF_NON_PROTECT_MT : Config.t := {|
  Config.queryName := "tXN_MOF_NON_PROTECT_MTs";
  Config.fields := ["TXN_DT"; "HS_CODE"; "HS_CODE_ZH"; "HS_CODE_EN"; "COUNTRY_ID"; "COUNTRY_ZH";
                    "COUNTRY_EN"; "COUNTRY_COMM_ZH"; "COUNTRY_COMM_EN"; "TRADE_FLOW";
                    "TRADE_VALUE_TWD_AMT"; "TRADE_QUANT"; "TRADE_WEIGHT_ORG"; "TRADE_WEIGHT";
                    "RATE_VALUE"; "TRADE_VALUE_USD_AMT"; "ETL_DT"];
  Config.numericFields := ["TRADE_VALUE_TWD_AMT"; "TRADE_QUANT"; "TRADE_WEIGHT_ORG";
                           "TRADE_WEIGHT"; "RATE_VALUE"; "TRADE_VALUE_USD_AMT"];
  Config.scalarFieldsEnum := "TXN_MOF_NON_PROTECT_MTScalarFields";
  Config.numericAggregateEnum := "TXN_MOF_NON_PROTECT_MTNumericAggregateFields";
  Config.filterInputType := "TXN_MOF_NON_PROTECT_MTFilterInput";
  Config.orderByInputType := "TXN_MOF_NON_PROTECT_MTOrderByInput";
  Config.description :=
    "完整交易明細資料表 - 包含每筆進出口交易的完整資訊(資料量大，查詢較慢)"
|}.

(** The own properties of the registry object, in insertion order (the
    order [Object.keys] and [Object.entries] enumerate). *)
Definition RESOLVER_REGISTRY : list (string * Config.t) :=
  [ ("UNION_REF_HSCODE", UNION_REF_HSCODE);
    ("trade_monthly_by_code_country", trade_monthly_by_code_country);
    ("trade_monthly_by_group_country", trade_monthly_by_group_country);
    ("UNION_REF_COUNTRY_AREA", UNION_REF_COUNTRY_AREA);
    ("TXN_MOF_NON_PROTECT_MT", TXN_MOF_NON_PROTECT_MT) ].

(** [Object.keys(obj)] of an object given by its entries. *)
Definition Object_keys {A : Type} (entries : list (string * A)) : list string :=
  map fst entries.

Fixpoint own_property {A : Type} (entries : list (string * A)) (key : string) : option A :=
  match entries with
  | [] => None
  | (k, a) :: rest => if String.eqb k key then Some a else own_property rest key
  end.

(** The registry is an object literal, so its prototype is
    [Object.prototype]: a property read that finds no own property goes
    on to these names, each of which holds a function or an object. *)
Definition Object_prototype_names : list string :=
  [ "constructor"; "__defineGetter__"; "__defineSetter__"; "hasOwnProperty";
    "__lookupGetter__"; "__lookupSetter__"; "isPrototypeOf"; "propertyIsEnumerable";
    "toString"; "valueOf"; "__proto__"; "toLocaleString" ].

(** What the read [RESOLVER_REGISTRY[resolverKey]] evaluates to. *)
Inductive registry_read : Type :=
| Own (config : Config.t)   (* a descriptor of the registry *)
| Inherited                 (* a member of [Object.prototype]: truthy, without [fields] *)
| Absent.                   (* [undefined] *)

Definition RESOLVER_REGISTRY_get (resolverKey : string) : registry_read :=
  match own_property RESOLVER_REGISTRY resolverKey with
  | Some config => Own config
  | None => if includes Object_prototype_names resolverKey then Inherited else Absent
  end.

(** ** Parameter bags *)

Module Aggregation.
(** One [{field, function}] request; [None] is an omitted property. *)
Record t : Type := mk {
  field : option string;
  function : option string
}.
End Aggregation.

Module Params.
(** The properties [buildQuery] destructures from [params].  The four
    that are serialized are arbitrary values ([VUndefined] when the
    property is absent); the three lists are arrays of strings or of
    aggregation requests, [None] when absent. *)
Record t : Type := mk {
  first : value;
  after : value;
  filter : value;
  orderBy : value;
  fields : option (list string);
  groupBy : option (list string);
  aggregations : option (list Aggregation.t)
}.

(** The default [params = {}]. *)
Definition empty : t :=
  mk VUndefined VUndefined VUndefined VUndefined None None None.
End Params.

(** [v !== undefined && v !== null]. *)
Definition not_nullish (v : value) : bool :=
  match v with
  | VUndefined | VNull => false
  | _ => true
  end.

(** ToBoolean. *)
Definition truthy (v : value) : bool :=
  match v with
  | VUndefined | VNull => false
  | VBoolean b => b
  | VNumber n => negb (n =? 0)%Z
  | VString s => negb (s =? "")
  | VArray _ | VObject _ => true
  end.

(** [Object.keys(v).length] for a truthy [v]: the entries of an object,
    the indices of an array or of a string (counted here in bytes, in
    JavaScript in UTF-16 units: both are zero for the empty string
    only), nothing for a number or a boolean. *)
Definition Object_keys_length (v : value) : nat :=
  match v with
  | VObject entries => List.length (Object_keys entries)
  | VArray items => List.length items
  | VString s => String.length s
  | _ => 0
  end.

(** [v && Object.keys(v).length > 0]. *)
Definition has_keys (v : value) : bool :=
  truthy v && Nat.ltb 0 (Object_keys_length v).

(** [l && l.length > 0] for an optional array. *)
Definition non_empty {A : Type} (l : option (list A)) : bool :=
  match l with
  | Some (_ :: _) => true
  | _ => false
  end.

(** [o || dflt] for an optional string: the empty string is falsy. *)
Definition or_default (o : option string) (dflt : string) : string :=
  match o with
  | Some s => if s =? "" then dflt else s
  | None => dflt
  end.

(** ** The aggregation block builder *)

(** [[...new Set(l)]]: the first occurrence of each string, in order. *)
Fixpoint Set_add_all (seen : list string) (l : list string) : list string :=
  match l with
  | [] => seen
  | x :: rest => Set_add_all (if includes seen x then seen else seen ++ [x]) rest
  end.

Definition unique (l : list string) : list string := Set_add_all [] l.

(** The body of the [map] callback. *)
Definition aggPart (numericFields : list string) (agg : Aggregation.t) : string :=
  let fn := or_default (Aggregation.function agg) "sum" in
  match Aggregation.field agg with
  | Some field =>
      if negb (field =? "") && includes numericFields field
      then fn ++ "(field: " ++ field ++ ")"
      else "count"
  | None => "count"
  end.

Definition INDENT10 : string := LF ++ "          ".

Definition aggregations_block (lines : string) : string :=
  "aggregations {" ++ INDENT10 ++ lines ++ LF ++ "        }".

Definition buildAggregationBlock
    (aggregations : option (list Aggregation.t)) (numericFields : list string) : string :=
  if negb (non_empty aggregations) then aggregations_block "count"
  else
    let aggParts := map (aggPart numericFields)
                        (match aggregations with Some l => l | None => [] end) in
    aggregations_block (join INDENT10 (unique aggParts)).

(** ** The query assembler *)

Inductive js_error : Type :=
| Error (message : string)
| TypeError.

Inductive completion (A : Type) : Type :=
| Return (a : A)
| Throw (e : js_error).
Arguments Return {A} a.
Arguments Throw {A} e.

(** [queryArgs.push(x)] under a condition. *)
Definition push_if (c : bool) (x : string) (queryArgs : list string) : list string :=
  if c then (queryArgs ++ [x])%list else queryArgs.

Definition queryArgs (p : Params.t) : list string :=
  let a := [] in
  let a := push_if (not_nullish (Params.first p))
             ("first: " ++ toGraphQLLiteral (Params.first p)) a in
  let a := push_if (not_nullish (Params.after p))
             ("after: " ++ toGraphQLLiteral (Params.after p)) a in
  let a := push_if (has_keys (Params.filter p))
             ("filter: " ++ toGraphQLLiteral (Params.filter p)) a in
  let a := push_if (has_keys (Params.orderBy p))
             ("orderBy: " ++ toGraphQLLiteral (Params.orderBy p)) a in
  a.

(** [fields.filter(f => config.fields.includes(f))], or the descriptor's
    list when no field is requested. *)
Definition selectedFields (config : Config.t) (p : Params.t) : list string :=
  if non_empty (Params.fields p)
  then List.filter (includes (Config.fields config))
                   (match Params.fields p with Some l => l | None => [] end)
  else Config.fields config.

Definition groupByFields (config : Config.t) (p : Params.t) : list string :=
  List.filter (includes (Config.fields config))
              (match Params.groupBy p with Some l => l | None => [] end).

Definition groupByBlock (config : Config.t) (p : Params.t) : string :=
  if non_empty (Params.groupBy p) then
    let aggBlock :=
      buildAggregationBlock (Params.aggregations p) (Config.numericFields config) in
    LF ++ "      groupBy(fields: [" ++ join ", " (groupByFields config p) ++ "]) {"
       ++ LF ++ "        fields {"
       ++ INDENT10 ++ join INDENT10 (groupByFields config p)
       ++ LF ++ "        }"
       ++ LF ++ "        " ++ aggBlock
       ++ LF ++ "      }"
  else "".

Definition argsStr (p : Params.t) : string :=
  match queryArgs p with
  | [] => ""
  | _ => "(" ++ join ", " (queryArgs p) ++ ")"
  end.

Definition itemsBlock (config : Config.t) (p : Params.t) : string :=
  join INDENT10 (selectedFields config p).

(** The template literal of the full query. *)
Definition query_text (config : Config.t) (p : Params.t) : string :=
  "query {"
    ++ LF ++ "    " ++ Config.queryName config ++ argsStr p ++ " {"
    ++ LF ++ "      items {"
    ++ LF ++ "        " ++ itemsBlock config p
    ++ LF ++ "      }"
    ++ LF ++ "      endCursor"
    ++ LF ++ "      hasNextPage" ++ groupByBlock config p
    ++ LF ++ "    }"
    ++ LF ++ "  }".

Definition unknown_resolver_message (resolverKey : string) : string :=
  "Unknown resolver: " ++ resolverKey ++ ". Available resolvers: "
    ++ join ", " (Object_keys RESOLVER_REGISTRY).

(** [buildQuery(resolverKey, params)].  The two [console.log] lines
    write to the log only and are left out.  When the registry read
    yields a member of [Object.prototype], [config] is truthy and
    [config.fields] is [undefined]: calling [includes] on it (some
    field requested) or [join] on it (none requested) raises a
    [TypeError] before anything is returned. *)
Definition buildQuery (resolverKey : string) (params : Params.t) : completion value :=
  match RESOLVER_REGISTRY_get resolverKey with
  | Absent => Throw (Error (unknown_resolver_message resolverKey))
  | Inherited => Throw TypeError
  | Own config => Return (VObject [("query", VString (query_text config params))])
  end.

(** ** What the specification states, in the terms of the code *)

(** The big-step evaluation of [toGraphQLLiteral]: one rule per branch
    of the function, the premises of the array and object rules being
    its recursive calls. *)
Inductive literal : value -> string -> Prop :=
| literal_null : literal VNull "null"
| literal_undefined : literal VUndefined "null"
| literal_number n : literal (VNumber n) (String_of_number n)
| literal_boolean b : literal (VBoolean b) (String_of_boolean b)
| literal_enum s : GRAPHQL_ENUMS_has s = true -> literal (VString s) s
| literal_string s : GRAPHQL_ENUMS_has s = false -> literal (VString s) (JSON_stringify s)
| literal_array items outs :
    Forall2 literal items outs ->
    literal (VArray items) ("[" ++ join ", " outs ++ "]")
| literal_object entries outs :
    Forall2 (fun kv out => literal (snd kv) out) entries outs ->
    literal (VObject entries)
      ("{ " ++ join ", " (map (fun ko => fst (fst ko) ++ ": " ++ snd ko) (combine entries outs))
            ++ " }").

(** [t] contains [s]. *)
Definition contains (t s : string) : Prop :=
  exists pre post, t = pre ++ s ++ post.

(** [t] contains the strings of [l] one after the other, in the order
    of [l]. *)
Inductive in_order : list string -> string -> Prop :=
| in_order_nil t : in_order [] t
| in_order_cons s l pre rest :
    in_order l rest -> in_order (s :: l) (pre ++ s ++ rest).

(** The requested names that the descriptor knows, in the order of the
    request: the specification's intersection "preserving the caller's
    requested order but dropping unknown names". *)
Inductive drops_unknown (known : list string) : list string -> list string -> Prop :=
| drops_nil : drops_unknown known [] []
| drops_keep x requested kept :
    In x known -> drops_unknown known requested kept ->
    drops_unknown known (x :: requested) (x :: kept)
| drops_drop x requested kept :
    ~ In x known -> drops_unknown known requested kept ->
    drops_unknown known (x :: requested) kept.

(** The fragment the specification gives one aggregation request:
    [function(field: <field>)] with [sum] for an omitted function when
    the field is a numeric field, a bare [count] otherwise. *)
Definition requested_fragment (numericFields : list string) (agg : Aggregation.t) : string :=
  let fn := match Aggregation.function agg with Some f => f | None => "sum" end in
  match Aggregation.field agg with
  | Some f =>
      if in_dec string_dec f numericFields then fn ++ "(field: " ++ f ++ ")" else "count"
  | None => "count"
  end.

(** An argument named [name] is in the argument list. *)
Definition has_arg (name : string) (args : list string) : bool :=
  existsb (String.prefix (name ++ ": ")) args.

(** [if c then [x] else []]: an argument that is there or not. *)
Definition optional (c : bool) (x : string) : list string :=
  if c then [x] else [].

(** The object [{ query }] that [buildQuery] returns. *)
Definition query_object (q : string) : value := VObject [("query", VString q)].

(** The selection set as it stands in the query. *)
Definition items_section (selection : list string) : string :=
  "items {" ++ LF ++ "        " ++ join INDENT10 selection ++ LF ++ "      }".

(** The head of the group-by block as it stands in the query. *)
Definition groupBy_section (names : list string) : string :=
  "groupBy(fields: [" ++ join ", " names ++ "]) {"
    ++ LF ++ "        fields {" ++ INDENT10 ++ join INDENT10 names ++ LF ++ "        }".

(** ** Parameter bags used as examples *)

(** Two requests of the same sum. *)
Definition sum_X_twice : list Aggregation.t :=
  [ Aggregation.mk (Some "X") (Some "sum"); Aggregation.mk (Some "X") (Some "sum") ].

(** A bag whose [first] is an explicit [null]. *)
Definition null_first : Params.t :=
  Params.mk VNull VUndefined VUndefined VUndefined None None None.

(** A bag with a page size, a filter and an ordering. *)
Definition page_of_usa : Params.t :=
  Params.mk (VNumber 10) VUndefined
    (VObject [("ISO3", VObject [("eq", VString "USA")])])
    (VObject [("ROW", VString "ASC")])
    None None None.

(** The request of the specification's example. *)
Definition unknown_and_ISO3 : Params.t :=
  Params.mk VUndefined VUndefined VUndefined VUndefined
    (Some ["UNKNOWN_FIELD"; "ISO3"]) (Some ["NOPE"; "AREA_NM"]) None.

(** A request that names no field of the descriptor. *)
Definition unknown_only : Params.t :=
  Params.mk VUndefined VUndefined VUndefined VUndefined
    (Some ["UNKNOWN_FIELD"]) None None.

(** ** More of the builder module *)

Module Resolver.
(** One element of what [getRegisteredResolvers] returns. *)
Record t : Type := mk {
  key : string;
  queryName : string;
  fields : list string;
  numericFields : list string;
  description : string
}.
End Resolver.

(** [getRegisteredResolvers()]: [Object.entries(RESOLVER_REGISTRY).map(...)]. *)
Definition getRegisteredResolvers : list Resolver.t :=
  map (fun kc =>
         Resolver.mk (fst kc) (Config.queryName (snd kc)) (Config.fields (snd kc))
                     (Config.numericFields (snd kc)) (Config.description (snd kc)))
      RESOLVER_REGISTRY.

(** [{ ...params, aggregations }]. *)
Definition with_aggregations (p : Params.t) (aggregations : option (list Aggregation.t))
  : Params.t :=
  Params.mk (Params.first p) (Params.after p) (Params.filter p) (Params.orderBy p)
            (Params.fields p) (Params.groupBy p) aggregations.

(** [{ ...params, first }]. *)
Definition with_first (p : Params.t) (first : value) : Params.t :=
  Params.mk first (Params.after p) (Params.filter p) (Params.orderBy p)
            (Params.fields p) (Params.groupBy p) (Params.aggregations p).

(** The lines of the aggregation block for a list of requests. *)
Definition aggregation_lines (numericFields : list string) (requested : list Aggregation.t)
  : list string :=
  unique (map (aggPart numericFields) requested).

(** What a lexer does with the body of a string literal, the opening
    quote read: a backslash takes the next character with it, the first
    double quote that no backslash precedes closes the literal; the
    result is the text after the closing quote, [None] when the literal
    is not closed. *)
Fixpoint after_closing_quote (s : string) : option string :=
  match s with
  | EmptyString => None
  | String c r =>
      if Nat.eqb (nat_of_ascii c) 34 then Some r
      else if Nat.eqb (nat_of_ascii c) 92 then
        match r with
        | EmptyString => None
        | String _ r' => after_closing_quote r'
        end
      else after_closing_quote r
  end.

(** The value of a hexadecimal digit in lower case. *)
Definition hex_value (c : ascii) : option nat :=
  let n := nat_of_ascii c in
  if Nat.leb 48 n && Nat.leb n 57 then Some (n - 48)
  else if Nat.leb 97 n && Nat.leb n 102 then Some (n - 87)
  else None.

(** Reading back one character written by [quote_char]. *)
Definition unquote_char (s : string) : option (ascii * string) :=
  match s with
  | EmptyString => None
  | String c r =>
      if Nat.eqb (nat_of_ascii c) 92 then
        match r with
        | String e r' =>
            let n := nat_of_ascii e in
            if Nat.eqb n 98 then Some (ascii_of_nat 8, r')
            else if Nat.eqb n 116 then Some (ascii_of_nat 9, r')
            else if Nat.eqb n 110 then Some (ascii_of_nat 10, r')
            else if Nat.eqb n 102 then Some (ascii_of_nat 12, r')
            else if Nat.eqb n 114 then Some (ascii_of_nat 13, r')
            else if Nat.eqb n 34 then Some (ascii_of_nat 34, r')
            else if Nat.eqb n 92 then Some (ascii_of_nat 92, r')
            else if Nat.eqb n 117 then
              match r' with
              | String _ (String _ (String h (String l r''))) =>
                  match hex_value h, hex_value l with
                  | Some a, Some b => Some (ascii_of_nat (16 * a + b), r'')
                  | _, _ => None
                  end
              | _ => None
              end
            else None
        | EmptyString => None
        end
      else Some (c, r)
  end.

(** No character of [s] is below U+0020. *)
Fixpoint printable (s : string) : bool :=
  match s with
  | EmptyString => true
  | String c r => Nat.leb 32 (nat_of_ascii c) && printable r
  end.

(** ** The server configuration (utils/config.js) *)

Module ServerConfig.
(** The [config] object.  The numbers are what [parseInt] made of the
    environment, taken here to be integers. *)
Record t : Type := mk {
  graphqlEndpoint : string;
  subscriptionKey : string;
  port : Z;
  schemaCacheTtlMs : Z;
  defaultPageSize : Z;
  maxPageSize : Z
}.
End ServerConfig.

(** The names pushed on [missing]. *)
Definition missing_variables (config : ServerConfig.t) : list string :=
  ((if ServerConfig.graphqlEndpoint config =? "" then ["APIM_GRAPHQL_ENDPOINT"] else [])
     ++ (if ServerConfig.subscriptionKey config =? "" then ["APIM_SUBSCRIPTION_KEY"] else []))%list.

(** [validateConfig()], on the configuration it reads. *)
Definition validateConfig (config : ServerConfig.t) : completion unit :=
  match missing_variables config with
  | [] => Return tt
  | missing =>
      Throw (Error ("Missing required environment variables: " ++ join ", " missing ++ ". "
                      ++ "Please set them in .env file or Azure Function App Application Settings."))
  end.

(** ** The resolver tools (tools/query-*.js)

    The handlers of the five resolver tools start the same way: they
    bound the page size, build the query from the caller's parameters
    with [first] replaced, and hand the text to the GraphQL client.
    The tool's schema makes [first] a number or absent. *)

(** [Math.min(params.first || config.defaultPageSize, config.maxPageSize)]:
    zero is falsy. *)
Definition page_size (config : ServerConfig.t) (first : option Z) : Z :=
  Z.min (match first with
         | Some n => if (n =? 0)%Z then ServerConfig.defaultPageSize config else n
         | None => ServerConfig.defaultPageSize config
         end)
        (ServerConfig.maxPageSize config).

(** [buildQuery(resolver, { ...params, first })], the query that the
    handler of the tool of [resolver] sends; [first] is [params.first],
    [params] holds the other properties. *)
Definition handler_query (resolver : string) (config : ServerConfig.t)
    (first : option Z) (params : Params.t) : completion value :=
  buildQuery resolver (with_first params (VNumber (page_size config first))).

(** ** The tool on monthly trade by industry group, simplified parameters *)

(** [z.enum(['出口', '進口'])]. *)
Inductive TradeFlow : Type :=
| Export
| Import.

Definition TradeFlow_name (t : TradeFlow) : string :=
  match t with
  | Export => "出口"
  | Import => "進口"
  end.

(** [z.enum(['ASC', 'DESC'])]. *)
Inductive Direction : Type :=
| Ascending
| Descending.

Definition Direction_name (d : Direction) : string :=
  match d with
  | Ascending => "ASC"
  | Descending => "DESC"
  end.

Module GroupParams.
(** The parameters of the tool, as its schema has them; [None] is an
    absent property. *)
Record t : Type := mk {
  year : option Z;
  tradeFlow : option TradeFlow;
  industryKeyword : option string;
  country : option string;
  order : option Direction;
  first : option Z
}.
End GroupParams.

(** A white space character of one byte: TAB, LF, VT, FF, CR, SP. *)
Definition is_space1 (a : ascii) : bool :=
  let n := nat_of_ascii a in
  (Nat.leb 9 n && Nat.leb n 13) || Nat.eqb n 32.

(** U+00A0 in UTF-8. *)
Definition is_space2 (a b : ascii) : bool :=
  Nat.eqb (nat_of_ascii a) 194 && Nat.eqb (nat_of_ascii b) 160.

(** The white space characters of three bytes in UTF-8: U+1680,
    U+2000 to U+200A, U+2028, U+2029, U+202F, U+205F, U+3000, U+FEFF. *)
Definition is_space3 (a b c : ascii) : bool :=
  let x := nat_of_ascii a in
  let y := nat_of_ascii b in
  let z := nat_of_ascii c in
  (Nat.eqb x 225 && Nat.eqb y 154 && Nat.eqb z 128)
  || (Nat.eqb x 226 && Nat.eqb y 128
      && ((Nat.leb 128 z && Nat.leb z 138) || Nat.eqb z 168 || Nat.eqb z 169
          || Nat.eqb z 175))
  || (Nat.eqb x 226 && Nat.eqb y 129 && Nat.eqb z 159)
  || (Nat.eqb x 227 && Nat.eqb y 128 && Nat.eqb z 128)
  || (Nat.eqb x 239 && Nat.eqb y 187 && Nat.eqb z 191).

(** [String.prototype.trimStart] on the bytes of a string. *)
Fixpoint trimStart (s : list ascii) : list ascii :=
  match s with
  | [] => []
  | a :: r =>
      if is_space1 a then trimStart r
      else
        match r with
        | [] => s
        | b :: r2 =>
            if is_space2 a b then trimStart r2
            else
              match r2 with
              | [] => s
              | c :: r3 => if is_space3 a b c then trimStart r3 else s
              end
        end
  end.

(** [trimStart] read from the end: the bytes given last first. *)
Fixpoint trimEnd_rev (s : list ascii) : list ascii :=
  match s with
  | [] => []
  | c :: r =>
      if is_space1 c then trimEnd_rev r
      else
        match r with
        | [] => s
        | b :: r2 =>
            if is_space2 b c then trimEnd_rev r2
            else
              match r2 with
              | [] => s
              | a :: r3 => if is_space3 a b c then trimEnd_rev r3 else s
              end
        end
  end.

(** [String.prototype.trim]. *)
Definition trim (s : string) : string :=
  string_of_list_ascii
    (rev (trimEnd_rev (rev (trimStart (list_ascii_of_string s))))).

Definition is_letter (a : ascii) : bool :=
  let n := nat_of_ascii a in
  (Nat.leb 65 n && Nat.leb n 90) || (Nat.leb 97 n && Nat.leb n 122).

(** A character of the class [[A-Z_]] under the flag [i]. *)
Definition is_word_char (a : ascii) : bool :=
  is_letter a || Nat.eqb (nat_of_ascii a) 95.

(** [/^[A-Z]{2}$/i.test(val)]. *)
Definition is_two_letters (val : string) : bool :=
  match val with
  | String a (String b EmptyString) => is_letter a && is_letter b
  | _ => false
  end.

Fixpoint all_chars (test : ascii -> bool) (s : string) : bool :=
  match s with
  | EmptyString => true
  | String a r => test a && all_chars test r
  end.

(** [/^[A-Z_]+$/i.test(val)]. *)
Definition is_letters_or_underscores (val : string) : bool :=
  negb (val =? "") && all_chars is_word_char val.

(** [toUpperCase] on a character of ASCII. *)
Definition upper_char (a : ascii) : ascii :=
  let n := nat_of_ascii a in
  if Nat.leb 97 n && Nat.leb n 122 then ascii_of_nat (n - 32) else a.

(** [toUpperCase] on a string of ASCII, which is what the two tests
    above leave. *)
Fixpoint toUpperCase (s : string) : string :=
  match s with
  | EmptyString => ""
  | String a r => String (upper_char a) (toUpperCase r)
  end.

(** The trade flow written in the filter.  [toLowerCase] leaves the
    two names of the schema as they are. *)
Definition trade_flow_value (t : TradeFlow) : string :=
  let tfRaw := TradeFlow_name t in
  if (tfRaw =? "出口") || (tfRaw =? "1") || (tfRaw =? "export") then "出口"
  else if (tfRaw =? "進口") || (tfRaw =? "2") || (tfRaw =? "import") then "進口"
  else TradeFlow_name t.

(** [{ eq: v }] and [{ contains: v }]. *)
Definition eq_filter (v : value) : value := VObject [("eq", v)].
Definition contains_filter (v : value) : value := VObject [("contains", v)].

(** The entry that a country adds to the filter. *)
Definition country_entry (country : string) : string * value :=
  let val := trim country in
  if is_two_letters val then ("COUNTRY_ID", eq_filter (VString (toUpperCase val)))
  else if is_letters_or_underscores val then
    ("AREA_ID", eq_filter (VString (toUpperCase val)))
  else ("or", VArray [ VObject [("COUNTRY_COMM_ZH", eq_filter (VString val))];
                       VObject [("AREA_NM", eq_filter (VString val))] ]).

(** The entries of the object [filter] at the end of
    [buildFilterFromParams], in the order of their assignment. *)
Definition filter_entries (params : GroupParams.t) : list (string * value) :=
  ((match GroupParams.year params with
    | Some y => if (y =? 0)%Z then [] else [("YEAR", eq_filter (VNumber y))]
    | None => []
    end)
   ++ (match GroupParams.tradeFlow params with
       | Some t => [("TRADE_FLOW", eq_filter (VString (trade_flow_value t)))]
       | None => []
       end)
   ++ (match GroupParams.industryKeyword params with
       | Some k => if k =? "" then [] else [("INDUSTRY", contains_filter (VString k))]
       | None => []
       end)
   ++ (match GroupParams.country params with
       | Some c => if c =? "" then [] else [country_entry c]
       | None => []
       end))%list.

(** [buildFilterFromParams(params)]. *)
Definition buildFilterFromParams (params : GroupParams.t) : value :=
  match filter_entries params with
  | [] => VUndefined
  | entries => VObject entries
  end.

(** The resolver of the tool. *)
Definition RESOLVER : string := "trade_monthly_by_group_country".

(** [normalizedParams] in [execute]. *)
Definition normalizedParams (config : ServerConfig.t) (params : GroupParams.t) : Params.t :=
  Params.mk
    (VNumber (Z.min (match GroupParams.first params with Some n => n | None => 50%Z end)
                    (ServerConfig.maxPageSize config)))
    VUndefined
    (buildFilterFromParams params)
    (match GroupParams.order params with
     | Some d => VObject [("PERIOD_MONTH", VString (Direction_name d))]
     | None => VUndefined
     end)
    None None None.

(** [buildQuery(RESOLVER, normalizedParams)], the query that [execute]
    sends. *)
Definition execute_query (config : ServerConfig.t) (params : GroupParams.t)
  : completion value :=
  buildQuery RESOLVER (normalizedParams config params).


(** ** The tool registry (tools/index.js) *)

Definition is_lower (a : ascii) : bool :=
  Nat.leb 97 (nat_of_ascii a) && Nat.leb (nat_of_ascii a) 122.

Definition is_underscore (a : ascii) : bool := Nat.eqb (nat_of_ascii a) 95.

(** [name.replace(/_([a-z])/g, (_, c) => c.toUpperCase())]: from left
    to right, an underscore and the lower-case letter after it become
    the letter in upper case. *)
Fixpoint camelAlias (name : string) : string :=
  match name with
  | EmptyString => ""
  | String c r =>
      match r with
      | String d r' =>
          if is_underscore c && is_lower d
          then String (upper_char d) (camelAlias r')
          else String c (camelAlias r)
      | EmptyString => String c ""
      end
  end.

Definition legacyPrefix : string := "taitra-graphql-mcp:".

(** The names under which [registerAllTools] registers one tool, in
    the order of the calls of [server.tool]. *)
Definition registered_names (name : string) : list string :=
  let alias := camelAlias name in
  ([name]
     ++ (if alias =? name then [] else [alias])
     ++ [(legacyPrefix ++ name)%string]
     ++ (if alias =? name then [] else [(legacyPrefix ++ alias)%string]))%list.

(** Some underscore of [s] is followed by a lower-case letter. *)
Fixpoint has_snake (s : string) : bool :=
  match s with
  | EmptyString => false
  | String c r =>
      match r with
      | String d _ => (is_underscore c && is_lower d) || has_snake r
      | EmptyString => false
      end
  end.

(** [n] spaces. *)
Fixpoint spaces (n : nat) : string :=
  match n with
  | O => ""
  | S m => String " " (spaces m)
  end.

(** ** The schema cache (utils/schema-cache.js)

    The module keeps a schema in two variables and in a file.  Its
    functions are modelled as steps on a state made of the two
    variables and of the files; each reading of [Date.now()] is an
    argument, and so is the outcome of the write to the disk.  A call
    runs to its end before the next one starts.  A file is either what
    [setCachedSchema] wrote or a text that [JSON.parse] refuses. *)

(** [JSON.parse(JSON.stringify(v))] for a value inside an array or an
    object: [undefined] becomes [null] in an array, a property that is
    [undefined] is left out. *)
Fixpoint JSON_image (v : value) : value :=
  match v with
  | VUndefined => VNull
  | VArray items => VArray (map JSON_image items)
  | VObject entries =>
      VObject (flat_map (fun kv => match snd kv with
                                   | VUndefined => []
                                   | _ => [(fst kv, JSON_image (snd kv))]
                                   end) entries)
  | other => other
  end.

Module CacheFile.
(** What is read back from a file that holds
    [JSON.stringify({ _cachedAt: now, schema }, null, 2)]; [schema] is
    [VUndefined] when the property was left out. *)
Record t : Type := mk {
  _cachedAt : Z;
  schema : value
}.
End CacheFile.

Inductive file : Type :=
| Written (content : CacheFile.t)
| Unparsable.

Module CacheState.
Record t : Type := mk {
  memoryCache : value;                  (* [null] at the start *)
  memoryCacheTimestamp : option Z;      (* [null] at the start *)
  files : string -> option file         (* the files that exist *)
}.
End CacheState.

(** The default cache file, [cache/schema_cache.json] beside the
    directory of the module. *)
Definition DEFAULT_CACHE_FILE : string := "../cache/schema_cache.json".

(** 24 hours in milliseconds. *)
Definition DEFAULT_TTL_MS : Z := 24 * 60 * 60 * 1000.

Module CacheOptions.
Record t : Type := mk {
  ttlMs : option Z;
  cacheFile : option string
}.

(** The default [options = {}]. *)
Definition empty : t := mk None None.
End CacheOptions.

(** [options.ttlMs || DEFAULT_TTL_MS]. *)
Definition effective_ttl (options : CacheOptions.t) : Z :=
  match CacheOptions.ttlMs options with
  | Some t => if (t =? 0)%Z then DEFAULT_TTL_MS else t
  | None => DEFAULT_TTL_MS
  end.

(** [options.cacheFile || DEFAULT_CACHE_FILE]. *)
Definition effective_file (options : CacheOptions.t) : string :=
  or_default (CacheOptions.cacheFile options) DEFAULT_CACHE_FILE.

(** A timestamp is truthy when it is a number other than zero. *)
Definition timestamp_set (t : option Z) : bool :=
  match t with
  | Some n => negb (n =? 0)%Z
  | None => false
  end.

(** The second part of [getCachedSchema]: the file. *)
Definition read_file_cache (ttlMs : Z) (cacheFile : string) (now : Z) (st : CacheState.t)
  : value * CacheState.t :=
  match CacheState.files st cacheFile with
  | Some (Written cached) =>
      if negb (CacheFile._cachedAt cached =? 0)%Z
         && (now - CacheFile._cachedAt cached <? ttlMs)%Z
      then (CacheFile.schema cached,
            CacheState.mk (CacheFile.schema cached) (Some (CacheFile._cachedAt cached))
                          (CacheState.files st))
      else (VNull, st)
  | Some Unparsable => (VNull, st)       (* [JSON.parse] throws, caught *)
  | None => (VNull, st)
  end.

(** [getCachedSchema(options)]; [now_memory] and [now_file] are the two
    readings of the clock, the second one made only when the file is
    read. *)
Definition getCachedSchema (options : CacheOptions.t) (now_memory now_file : Z)
    (st : CacheState.t) : value * CacheState.t :=
  let ttlMs := effective_ttl options in
  let cacheFile := effective_file options in
  if truthy (CacheState.memoryCache st) && timestamp_set (CacheState.memoryCacheTimestamp st)
  then
    if (now_memory - match CacheState.memoryCacheTimestamp st with
                     | Some t => t
                     | None => 0
                     end <? ttlMs)%Z
    then (CacheState.memoryCache st, st)
    else read_file_cache ttlMs cacheFile now_file
           (CacheState.mk VNull None (CacheState.files st))
  else read_file_cache ttlMs cacheFile now_file st.

(** The file that [writeFile] leaves. *)
Definition written_file (now : Z) (schema : value) : file :=
  Written (CacheFile.mk now (match schema with
                             | VUndefined => VUndefined
                             | _ => JSON_image schema
                             end)).

(** [setCachedSchema(schema, options)]; [disk_ok] tells whether
    [mkdir] and [writeFile] went through: when they do not, the error
    is caught and the files are as before. *)
Definition setCachedSchema (schema : value) (options : CacheOptions.t) (now : Z)
    (disk_ok : bool) (st : CacheState.t) : CacheState.t :=
  let cacheFile := effective_file options in
  CacheState.mk schema (Some now)
    (if disk_ok
     then fun path => if path =? cacheFile then Some (written_file now schema)
                      else CacheState.files st path
     else CacheState.files st).

(** [clearCache()]. *)
Definition clearCache (st : CacheState.t) : CacheState.t :=
  CacheState.mk VNull None (CacheState.files st).

(** No value of [v] is [undefined], at any depth. *)
Fixpoint defined_everywhere (v : value) : bool :=
  match v with
  | VUndefined => false
  | VArray items => forallb defined_everywhere items
  | VObject entries => forallb (fun kv => defined_everywhere (snd kv)) entries
  | _ => true
  end.

(** ** Definitions that the statements are written with *)

(** [Number.isSafeInteger(n)] for an integer. *)
Definition safe_integer (n : Z) : Prop := (- 2 ^ 53 < n < 2 ^ 53)%Z.

(** The character that a one-letter escape of JSON stands for. *)
Definition simple_escape (e : ascii) : option ascii :=
  let n := nat_of_ascii e in
  if Nat.eqb n 34 then Some (ascii_of_nat 34)
  else if Nat.eqb n 92 then Some (ascii_of_nat 92)
  else if Nat.eqb n 47 then Some (ascii_of_nat 47)
  else if Nat.eqb n 98 then Some (ascii_of_nat 8)
  else if Nat.eqb n 102 then Some (ascii_of_nat 12)
  else if Nat.eqb n 110 then Some (ascii_of_nat 10)
  else if Nat.eqb n 114 then Some (ascii_of_nat 13)
  else if Nat.eqb n 116 then Some (ascii_of_nat 9)
  else None.

(** The value of a hexadecimal digit, in either case. *)
Definition hex_digit_value (c : ascii) : option nat :=
  let n := nat_of_ascii c in
  if Nat.leb 48 n && Nat.leb n 57 then Some (n - 48)
  else if Nat.leb 97 n && Nat.leb n 102 then Some (n - 87)
  else if Nat.leb 65 n && Nat.leb n 70 then Some (n - 55)
  else None.

(** The string that the body of a JSON string literal stands for, by
    the grammar of JSON: a backslash starts an escape, a double quote
    or a character below U+0020 cannot stand unescaped.  An escape
    [\uXXXX] is read when it stands for a character of ASCII. *)
Fixpoint JSON_string_body (body : string) : option string :=
  match body with
  | EmptyString => Some ""
  | String c r =>
      if Nat.eqb (nat_of_ascii c) 92 then
        match r with
        | EmptyString => None
        | String e r1 =>
            if Nat.eqb (nat_of_ascii e) 117 then
              match r1 with
              | String h1 (String h2 (String h3 (String h4 r2))) =>
                  match hex_digit_value h1, hex_digit_value h2,
                        hex_digit_value h3, hex_digit_value h4 with
                  | Some 0, Some 0, Some a, Some b =>
                      if Nat.ltb (16 * a + b) 128
                      then option_map (String (ascii_of_nat (16 * a + b)))
                                      (JSON_string_body r2)
                      else None
                  | _, _, _, _ => None
                  end
              | _ => None
              end
            else
              match simple_escape e with
              | Some ch => option_map (String ch) (JSON_string_body r1)
              | None => None
              end
        end
      else if Nat.eqb (nat_of_ascii c) 34 || Nat.ltb (nat_of_ascii c) 32 then None
      else option_map (String c) (JSON_string_body r)
  end.

(** [s] has no line break. *)
Fixpoint single_line (s : string) : bool :=
  match s with
  | EmptyString => true
  | String c r => negb (Nat.eqb (nat_of_ascii c) 10) && single_line r
  end.

(** The lines of a text: what stands between its line breaks. *)
Fixpoint split_lines (s : string) : list string :=
  match s with
  | EmptyString => [""]
  | String c r =>
      if Nat.eqb (nat_of_ascii c) 10 then "" :: split_lines r
      else
        match split_lines r with
        | line :: others => String c line :: others
        | [] => [String c ""]
        end
  end.

(** A name that is given: present and not the empty string. *)
Definition given (name : option string) : option string :=
  match name with
  | Some EmptyString => None
  | other => other
  end.

(** The fragment of one aggregation request, stated apart from the
    code: [function(field: <field>)], with [sum] when no function is
    given, when the field is given and is a numeric field; a bare
    [count] otherwise. *)
Definition fragment_of_request (numericFields : list string) (agg : Aggregation.t) : string :=
  match given (Aggregation.field agg) with
  | Some f =>
      if in_dec string_dec f numericFields
      then match given (Aggregation.function agg) with
           | Some fn => fn
           | None => "sum"
           end ++ "(field: " ++ f ++ ")"
      else "count"
  | None => "count"
  end.

(** The names of a request have no line break. *)
Definition names_on_one_line (agg : Aggregation.t) : Prop :=
  (forall s, Aggregation.function agg = Some s -> single_line s = true)
  /\ (forall s, Aggregation.field agg = Some s -> single_line s = true).

(** The values for which [filter && Object.keys(filter).length > 0]
    holds: an object with a property, an array with an element, a
    string with a character. *)
Definition has_own_keys (v : value) : Prop :=
  match v with
  | VObject (_ :: _) => True
  | VArray (_ :: _) => True
  | VString s => s <> ""
  | _ => False
  end.

(** [A] is the letter [a] in upper case, or [a] itself when [a] is no
    lower-case letter. *)
Definition upper_of (a A : ascii) : Prop :=
  nat_of_ascii A
  = if Nat.leb 97 (nat_of_ascii a) && Nat.leb (nat_of_ascii a) 122
    then nat_of_ascii a - 32
    else nat_of_ascii a.

(** A letter of ASCII, by its code. *)
Definition letter_code (a : ascii) : Prop :=
  65 <= nat_of_ascii a <= 90 \/ 97 <= nat_of_ascii a <= 122.

(** A letter of ASCII or an underscore. *)
Definition word_code (a : ascii) : Prop :=
  letter_code a \/ nat_of_ascii a = 95.

(** A bag whose [filter] is a string. *)
Definition string_filter : Params.t :=
  Params.mk VUndefined VUndefined (VString "abc") VUndefined None None None.

(** A request with an empty function name, and one with an empty
    field name. *)
Definition empty_function : Aggregation.t := Aggregation.mk (Some "ROW") (Some "").
Definition empty_field : Aggregation.t := Aggregation.mk (Some "") (Some "avg").

(** A string with a double quote, a backslash and a line break. *)
Definition quote_backslash_newline : string :=
  "a" ++ DQUOTE ++ "b" ++ BACKSLASH ++ "c" ++ LF.

(** ** More values used as examples *)

(** Requests for two different sums. *)
Definition sum_ROW_avg_AREA_sort : list Aggregation.t :=
  [ Aggregation.mk (Some "ROW") (Some "sum");
    Aggregation.mk (Some "AREA_sort") (Some "avg") ].

(** A request that groups by a name the registry does not have. *)
Definition group_by_unknown : Params.t :=
  Params.mk VUndefined VUndefined VUndefined VUndefined None (Some ["NOPE"]) None.

(** A request that names [ISO3] twice. *)
Definition ISO3_twice : Params.t :=
  Params.mk VUndefined VUndefined VUndefined VUndefined (Some ["ISO3"; "ISO3"]) None None.

(** A bag of nulls and empty containers. *)
Definition all_empty : Params.t :=
  Params.mk VNull VNull (VObject []) (VObject []) (Some []) (Some []) (Some sum_X_twice).

(** A configuration with the default page sizes. *)
Definition default_config : ServerConfig.t :=
  ServerConfig.mk "https://apim.example/graphql" "key" 3000 86400000 100 1000.

(** A small schema. *)
Definition small_schema : value :=
  VObject [("data", VObject [("__schema", VObject [("types", VArray [])])])].

(** The state of a process that has just started, without files. *)
Definition fresh_state : CacheState.t :=
  CacheState.mk VNull None (fun _ => None).

(** A call of the tool on monthly trade by industry group. *)
Definition exports_to_us_2024 : GroupParams.t :=
  GroupParams.mk (Some 2024%Z) (Some Export) None (Some " us ") (Some Descending)
                 (Some 0%Z).

(** ** Strings and lists *)

Lemma append_assoc (a b c : string) : (a ++ b) ++ c = a ++ (b ++ c).
Proof.
  induction a as [|ch a IH]; simpl; [reflexivity | now rewrite IH].
Qed.

Lemma length_append (a b : string) :
  String.length (a ++ b) = String.length a + String.length b.
Proof.
  induction a as [|ch a IH]; simpl; [reflexivity | now rewrite IH].
Qed.

Lemma includes_In (l : list string) (x : string) : includes l x = true <-> In x l.
Proof.
  unfold includes. rewrite existsb_exists. split.
  - intros (y & Hy & E). apply String.eqb_eq in E. now subst.
  - intros H. exists x. split; [assumption | apply String.eqb_refl].
Qed.

Lemma includes_not_In (l : list string) (x : string) : includes l x = false <-> ~ In x l.
Proof.
  rewrite <- includes_In. destruct (includes l x); split; congruence.
Qed.

Lemma append_nil_r (a : string) : a ++ "" = a.
Proof.
  induction a as [|ch a IH]; simpl; [reflexivity | now rewrite IH].
Qed.

Lemma in_order_prepend (l : list string) (pre t : string) :
  in_order l t -> in_order l (pre ++ t).
Proof.
  intros H. destruct H as [t|s l p rest H]; [constructor|].
  rewrite <- append_assoc. now constructor.
Qed.

Lemma in_order_wrap (l : list string) (pre t post : string) :
  in_order l t -> in_order l (pre ++ t ++ post).
Proof.
  intros H. apply in_order_prepend.
  induction H as [t|s l p rest H IH]; [constructor|].
  rewrite !append_assoc. now constructor.
Qed.

Lemma in_order_join (sep : string) (l : list string) : in_order l (join sep l).
Proof.
  induction l as [|x r IH]; [constructor|].
  destruct r as [|y r'].
  - change (join sep [x]) with x.
    rewrite <- (append_nil_r x) at 2.
    apply (in_order_cons x [] "" ""). constructor.
  - change (join sep (x :: y :: r')) with ("" ++ x ++ (sep ++ join sep (y :: r'))).
    constructor. now apply in_order_prepend.
Qed.

(** ** The literal serializer *)

Lemma literal_all (items : list value) :
  Forall (fun v => literal v (toGraphQLLiteral v)) items ->
  Forall2 literal items (map toGraphQLLiteral items).
Proof.
  induction 1; simpl; constructor; assumption.
Qed.

Lemma literal_entries (entries : list (string * value)) :
  Forall (fun kv => literal (snd kv) (toGraphQLLiteral (snd kv))) entries ->
  Forall2 (fun kv out => literal (snd kv) out) entries
          (map (fun kv => toGraphQLLiteral (snd kv)) entries).
Proof.
  induction 1; simpl; constructor; assumption.
Qed.

Lemma combine_entries (entries : list (string * value)) :
  map (fun ko => fst (fst ko) ++ ": " ++ snd ko)
      (combine entries (map (fun kv => toGraphQLLiteral (snd kv)) entries))
  = map (fun kv => fst kv ++ ": " ++ toGraphQLLiteral (snd kv)) entries.
Proof.
  induction entries as [|kv r IH]; cbn [map combine fst snd]; [reflexivity|].
  f_equal. exact IH.
Qed.

(** The function computes the evaluation given by the rules. *)
Lemma toGraphQLLiteral_literal (v : value) : literal v (toGraphQLLiteral v).
Proof.
  induction v as [| |n|b|s|items IH|entries IH] using value_nested_ind;
    try (simpl; constructor; fail).
  - simpl. destruct (GRAPHQL_ENUMS_has s) eqn:E; now constructor.
  - simpl. constructor. now apply literal_all.
  - simpl. rewrite <- combine_entries. constructor. now apply literal_entries.
Qed.

(** The rules give one result at most. *)
Lemma literal_functional (v : value) :
  forall s, literal v s -> s = toGraphQLLiteral v.
Proof.
  induction v as [| |n|b|s0|items IH|entries IH] using value_nested_ind;
    intros s H; inversion H as [| | | |? E|? E|? outs F|? outs F]; subst;
    cbn [toGraphQLLiteral]; try reflexivity.
  - now rewrite E.
  - now rewrite E.
  - assert (outs = map toGraphQLLiteral items) as ->; [|reflexivity].
    clear H. revert IH.
    induction F as [|v out items outs Hv F IHF]; intros IH; [reflexivity|].
    inversion IH; subst. cbn [map]. f_equal; auto.
  - assert (outs = map (fun kv => toGraphQLLiteral (snd kv)) entries) as ->;
      [|now rewrite combine_entries].
    clear H. revert IH.
    induction F as [|kv out entries outs Hv F IHF]; intros IH; [reflexivity|].
    inversion IH; subst. cbn [map]. f_equal; auto.
Qed.

Lemma quote_char_length (c : ascii) : 1 <= String.length (quote_char c).
Proof.
  unfold quote_char.
  repeat match goal with
         | |- context [if ?b then _ else _] => destruct b
         end; simpl; lia.
Qed.

Lemma json_escape_length (s : string) : String.length s <= String.length (json_escape s).
Proof.
  induction s as [|c r IH]; simpl; [lia|].
  rewrite length_append. pose proof (quote_char_length c). lia.
Qed.

Lemma JSON_stringify_length (s : string) :
  String.length s + 2 <= String.length (JSON_stringify s).
Proof.
  unfold JSON_stringify. rewrite !length_append.
  pose proof (json_escape_length s). simpl. lia.
Qed.

Lemma GRAPHQL_ENUMS_has_spec (s : string) :
  GRAPHQL_ENUMS_has s = true <-> s = "ASC" \/ s = "DESC".
Proof.
  unfold GRAPHQL_ENUMS_has. rewrite includes_In. simpl.
  intuition congruence.
Qed.

(** C9: the literal serializer is total on JSON-like input: every value
    built from null, undefined, booleans, numbers, strings, arrays and
    plain objects has an evaluation, which ends with one string, the
    one [toGraphQLLiteral] computes; the recursion goes through the
    elements of arrays and the property values of objects only. *)
Theorem toGraphQLLiteral_total :
  forall v : value,
    exists s : string,
      literal v s /\ toGraphQLLiteral v = s /\ (forall s', literal v s' -> s' = s).
Proof.
  intros v. exists (toGraphQLLiteral v).
  split; [apply toGraphQLLiteral_literal|].
  split; [reflexivity | apply literal_functional].
Qed.

(** ** The registry *)

(** C8: in each of the five entries of the registry, every numeric
    field is one of the entry's fields. *)
Theorem numericFields_subset_fields :
  List.length RESOLVER_REGISTRY = 5
  /\ forall (key : string) (config : Config.t),
       In (key, config) RESOLVER_REGISTRY ->
       incl (Config.numericFields config) (Config.fields config).
Proof.
  split; [reflexivity|].
  intros key config H.
  assert (A : forallb (fun kc => forallb (includes (Config.fields (snd kc)))
                                         (Config.numericFields (snd kc)))
                      RESOLVER_REGISTRY = true) by (vm_compute; reflexivity).
  rewrite forallb_forall in A. specialize (A _ H). simpl in A.
  rewrite forallb_forall in A.
  intros f Hf. apply includes_In. now apply A.
Qed.

(** ** The aggregation block builder *)

Lemma Set_add_all_In (l seen : list string) (x : string) :
  In x (Set_add_all seen l) <-> In x seen \/ In x l.
Proof.
  revert seen. induction l as [|y r IH]; intros seen; simpl; [tauto|].
  rewrite IH. destruct (includes seen y) eqn:E.
  - apply includes_In in E. intuition (subst; auto).
  - rewrite in_app_iff. simpl. intuition (subst; auto).
Qed.

Lemma Set_add_all_NoDup (l seen : list string) :
  NoDup seen -> NoDup (Set_add_all seen l).
Proof.
  revert seen. induction l as [|y r IH]; intros seen H; simpl; [assumption|].
  apply IH. destruct (includes seen y) eqn:E; [assumption|].
  apply includes_not_In in E.
  apply NoDup_app; [assumption | repeat constructor; simpl; tauto |].
  intros a Ha [<-|[]]. contradiction.
Qed.

Lemma unique_In (l : list string) (x : string) : In x (unique l) <-> In x l.
Proof.
  unfold unique. rewrite Set_add_all_In. simpl. tauto.
Qed.

Lemma unique_NoDup (l : list string) : NoDup (unique l).
Proof.
  apply Set_add_all_NoDup. constructor.
Qed.

(** On requests whose names are not empty, the callback gives the
    fragment of the specification. *)
Lemma aggPart_requested_fragment (numericFields : list string) (agg : Aggregation.t) :
  ~ In "" numericFields ->
  Aggregation.function agg <> Some "" ->
  aggPart numericFields agg = requested_fragment numericFields agg.
Proof.
  intros Hnf Hfn. unfold aggPart, requested_fragment, or_default.
  destruct agg as [[f|] fn]; simpl in *; [|reflexivity].
  assert (Efn : match fn with
                | Some s => if s =? "" then "sum" else s
                | None => "sum"
                end = match fn with Some s => s | None => "sum" end).
  { destruct fn as [s|]; [|reflexivity].
    destruct (String.eqb_spec s ""); [subst; congruence | reflexivity]. }
  rewrite Efn.
  destruct (in_dec string_dec f numericFields) as [Hin|Hout].
  - destruct (String.eqb_spec f ""); [subst; contradiction|].
    apply includes_In in Hin. rewrite Hin. reflexivity.
  - apply includes_not_In in Hout. rewrite Hout, andb_false_r. reflexivity.
Qed.

(** The examples of the specification: a repeated request gives one
    line, a request on a field that is not numeric gives [count]. *)
Example aggregation_dedup :
  buildAggregationBlock (Some sum_X_twice) ["X"] = aggregations_block "sum(field: X)".
Proof. reflexivity. Qed.

Example aggregation_downgrade :
  buildAggregationBlock (Some [Aggregation.mk (Some "NOT_NUMERIC") (Some "avg")]) ["OTHER"]
  = aggregations_block "count".
Proof. reflexivity. Qed.

(** ** The query assembler *)

Lemma own_property_In {A : Type} (entries : list (string * A)) (key : string) (a : A) :
  own_property entries key = Some a -> In (key, a) entries.
Proof.
  induction entries as [|[k b] r IH]; simpl; [discriminate|].
  destruct (String.eqb_spec k key) as [->|Hne].
  - intros [= ->]. now left.
  - intros H. right. now apply IH.
Qed.

Lemma registry_get_Own_In (key : string) (config : Config.t) :
  RESOLVER_REGISTRY_get key = Own config -> In (key, config) RESOLVER_REGISTRY.
Proof.
  unfold RESOLVER_REGISTRY_get.
  destruct (own_property RESOLVER_REGISTRY key) as [c|] eqn:E.
  - intros [= ->]. now apply own_property_In.
  - destruct (includes Object_prototype_names key); discriminate.
Qed.

Lemma registry_In_get (key : string) (config : Config.t) :
  In (key, config) RESOLVER_REGISTRY -> RESOLVER_REGISTRY_get key = Own config.
Proof.
  unfold RESOLVER_REGISTRY. simpl.
  intros [H|[H|[H|[H|[H|[]]]]]]; inversion H; subst; reflexivity.
Qed.

Lemma registry_fields_not_empty (key : string) (config : Config.t) :
  In (key, config) RESOLVER_REGISTRY -> Config.fields config <> [].
Proof.
  unfold RESOLVER_REGISTRY. simpl.
  intros [H|[H|[H|[H|[H|[]]]]]]; inversion H; subst; discriminate.
Qed.

Lemma buildQuery_Own (key : string) (config : Config.t) (p : Params.t) :
  RESOLVER_REGISTRY_get key = Own config ->
  buildQuery key p = Return (query_object (query_text config p)).
Proof.
  intros H. unfold buildQuery. now rewrite H.
Qed.

Lemma in_order_contains (l : list string) (t : string) :
  in_order l t -> Forall (contains t) l.
Proof.
  induction 1 as [t|s l pre rest H IH]; constructor.
  - now exists pre, rest.
  - rewrite Forall_forall in *. intros x Hx.
    destruct (IH x Hx) as (a & b & ->).
    exists (pre ++ s ++ a), b. now rewrite !append_assoc.
Qed.

Lemma filter_drops_unknown (known requested : list string) :
  drops_unknown known requested (List.filter (includes known) requested).
Proof.
  induction requested as [|x r IH]; simpl; [constructor|].
  destruct (includes known x) eqn:E.
  - apply drops_keep; [now apply includes_In | assumption].
  - apply drops_drop; [now apply includes_not_In | assumption].
Qed.

Lemma drops_unknown_all (known requested : list string) :
  (forall f, In f requested -> ~ In f known) ->
  List.filter (includes known) requested = [].
Proof.
  induction requested as [|x r IH]; intros H; simpl; [reflexivity|].
  assert (E : includes known x = false) by (apply includes_not_In, H; now left).
  rewrite E. apply IH. intros f Hf. apply H. now right.
Qed.

Lemma query_text_items (config : Config.t) (p : Params.t) :
  contains (query_text config p) (items_section (selectedFields config p)).
Proof.
  exists ("query {" ++ LF ++ "    " ++ Config.queryName config ++ argsStr p ++ " {"
            ++ LF ++ "      "),
         (LF ++ "      endCursor" ++ LF ++ "      hasNextPage" ++ groupByBlock config p
            ++ LF ++ "    }" ++ LF ++ "  }").
  unfold query_text, items_section, itemsBlock.
  repeat rewrite append_assoc. reflexivity.
Qed.

Lemma query_text_groupBy (config : Config.t) (p : Params.t) :
  non_empty (Params.groupBy p) = true ->
  contains (query_text config p) (groupBy_section (groupByFields config p)).
Proof.
  intros H.
  exists ("query {" ++ LF ++ "    " ++ Config.queryName config ++ argsStr p ++ " {"
            ++ LF ++ "      items {" ++ LF ++ "        " ++ itemsBlock config p
            ++ LF ++ "      }" ++ LF ++ "      endCursor" ++ LF ++ "      hasNextPage"
            ++ LF ++ "      "),
         (LF ++ "        "
            ++ buildAggregationBlock (Params.aggregations p) (Config.numericFields config)
            ++ LF ++ "      }" ++ LF ++ "    }" ++ LF ++ "  }").
  unfold query_text, groupBy_section, groupByBlock. rewrite H.
  repeat rewrite append_assoc. reflexivity.
Qed.

Lemma query_text_queryName_args (config : Config.t) (p : Params.t) :
  contains (query_text config p) (Config.queryName config ++ argsStr p ++ " {").
Proof.
  exists ("query {" ++ LF ++ "    "),
         (LF ++ "      items {" ++ LF ++ "        " ++ itemsBlock config p
            ++ LF ++ "      }" ++ LF ++ "      endCursor" ++ LF ++ "      hasNextPage"
            ++ groupByBlock config p ++ LF ++ "    }" ++ LF ++ "  }").
  unfold query_text. repeat rewrite append_assoc. reflexivity.
Qed.

Lemma prefix_append (s t : string) : String.prefix s (s ++ t) = true.
Proof.
  induction s as [|c s IH]; simpl; [now destruct t|].
  destruct (ascii_dec c c); [assumption | congruence].
Qed.

Lemma queryArgs_parts (p : Params.t) :
  queryArgs p
  = (optional (not_nullish (Params.first p))
              ("first: " ++ toGraphQLLiteral (Params.first p))
     ++ optional (not_nullish (Params.after p))
                 ("after: " ++ toGraphQLLiteral (Params.after p))
     ++ optional (has_keys (Params.filter p))
                 ("filter: " ++ toGraphQLLiteral (Params.filter p))
     ++ optional (has_keys (Params.orderBy p))
                 ("orderBy: " ++ toGraphQLLiteral (Params.orderBy p)))%list.
Proof.
  unfold queryArgs, push_if, optional.
  destruct (not_nullish (Params.first p)), (not_nullish (Params.after p)),
    (has_keys (Params.filter p)), (has_keys (Params.orderBy p)); reflexivity.
Qed.

Lemma has_arg_queryArgs (p : Params.t) :
  has_arg "first" (queryArgs p) = not_nullish (Params.first p)
  /\ has_arg "after" (queryArgs p) = not_nullish (Params.after p)
  /\ has_arg "filter" (queryArgs p) = has_keys (Params.filter p)
  /\ has_arg "orderBy" (queryArgs p) = has_keys (Params.orderBy p).
Proof.
  rewrite queryArgs_parts. unfold has_arg, optional.
  pose proof (prefix_append "first: " (toGraphQLLiteral (Params.first p))) as P1.
  pose proof (prefix_append "after: " (toGraphQLLiteral (Params.after p))) as P2.
  pose proof (prefix_append "filter: " (toGraphQLLiteral (Params.filter p))) as P3.
  pose proof (prefix_append "orderBy: " (toGraphQLLiteral (Params.orderBy p))) as P4.
  change ("first" ++ ": ") with "first: ". change ("after" ++ ": ") with "after: ".
  change ("filter" ++ ": ") with "filter: ". change ("orderBy" ++ ": ") with "orderBy: ".
  destruct (not_nullish (Params.first p)), (not_nullish (Params.after p)),
    (has_keys (Params.filter p)), (has_keys (Params.orderBy p));
    cbn [app existsb]; rewrite ?P1, ?P2, ?P3, ?P4; repeat split; reflexivity.
Qed.

Lemma not_nullish_spec (v : value) :
  not_nullish v = true <-> v <> VUndefined /\ v <> VNull.
Proof.
  destruct v; simpl; split; try (intros [? ?]); try split; congruence.
Qed.

Lemma has_keys_object (entries : list (string * value)) :
  has_keys (VObject entries) = true <-> entries <> [].
Proof.
  destruct entries as [|kv r]; split; intros H.
  - discriminate H.
  - congruence.
  - discriminate.
  - reflexivity.
Qed.

Lemma has_keys_spec (v : value) : has_keys v = true <-> has_own_keys v.
Proof.
  unfold has_keys. destruct v as [| |n|b|s|items|entries]; cbn [truthy Object_keys_length
    has_own_keys andb]; try (split; [discriminate | intros []]).
  - rewrite andb_false_r. split; [discriminate | intros []].
  - rewrite andb_false_r. split; [discriminate | intros []].
  - destruct s as [|c r]; [split; [discriminate | congruence]|].
    split; [discriminate | reflexivity].
  - destruct items as [|x r]; [split; [discriminate | intros []]|].
    split; [trivial | reflexivity].
  - destruct entries as [|x r]; [split; [discriminate | intros []]|].
    split; [trivial | reflexivity].
Qed.

(** C3, as the code has it: the argument list is made of [first],
    [after], [filter] and [orderBy], in that order, each one there or
    not; [first] and [after] are there exactly when the value is
    neither undefined nor null, [filter] and [orderBy] exactly when the
    value is an object with a property, an array with an element or a
    string with a character, which for an object means that it is not
    empty; an absent or null parameter leaves no argument; the list,
    between parentheses, follows the query name in the text. *)
Theorem queryArgs_present_iff :
  forall (key : string) (config : Config.t) (p : Params.t),
    RESOLVER_REGISTRY_get key = Own config ->
    buildQuery key p = Return (query_object (query_text config p))
    /\ contains (query_text config p) (Config.queryName config ++ argsStr p ++ " {")
    /\ argsStr p = (if Nat.eqb (List.length (queryArgs p)) 0 then ""
                    else "(" ++ join ", " (queryArgs p) ++ ")")
    /\ queryArgs p
       = (optional (not_nullish (Params.first p))
                   ("first: " ++ toGraphQLLiteral (Params.first p))
          ++ optional (not_nullish (Params.after p))
                      ("after: " ++ toGraphQLLiteral (Params.after p))
          ++ optional (has_keys (Params.filter p))
                      ("filter: " ++ toGraphQLLiteral (Params.filter p))
          ++ optional (has_keys (Params.orderBy p))
                      ("orderBy: " ++ toGraphQLLiteral (Params.orderBy p)))%list
    /\ (has_arg "first" (queryArgs p) = true
        <-> Params.first p <> VUndefined /\ Params.first p <> VNull)
    /\ (has_arg "after" (queryArgs p) = true
        <-> Params.after p <> VUndefined /\ Params.after p <> VNull)
    /\ has_arg "filter" (queryArgs p) = has_keys (Params.filter p)
    /\ has_arg "orderBy" (queryArgs p) = has_keys (Params.orderBy p)
    /\ (has_arg "filter" (queryArgs p) = true <-> has_own_keys (Params.filter p))
    /\ (has_arg "orderBy" (queryArgs p) = true <-> has_own_keys (Params.orderBy p))
    /\ (forall entries, has_keys (VObject entries) = true <-> entries <> [])
    /\ has_keys VUndefined = false
    /\ has_keys VNull = false.
Proof.
  intros key config p H.
  destruct (has_arg_queryArgs p) as (A1 & A2 & A3 & A4).
  split; [now apply buildQuery_Own|].
  split; [apply query_text_queryName_args|].
  split; [unfold argsStr; now destruct (queryArgs p)|].
  split; [apply queryArgs_parts|].
  split; [rewrite A1; apply not_nullish_spec|].
  split; [rewrite A2; apply not_nullish_spec|].
  split; [exact A3|]. split; [exact A4|].
  split; [rewrite A3; apply has_keys_spec|].
  split; [rewrite A4; apply has_keys_spec|].
  split; [apply has_keys_object|]. split; reflexivity.
Qed.

(** C4: for each key of the registry, [buildQuery] on the empty
    parameter bag returns a query; the text names the entry's query
    name and then each of its fields, in the order of the registry. *)
Theorem buildQuery_default_fields :
  forall (key : string) (config : Config.t),
    In (key, config) RESOLVER_REGISTRY ->
    exists q : string,
      buildQuery key Params.empty = Return (query_object q)
      /\ q = "query {" ++ LF ++ "    " ++ Config.queryName config ++ " {"
               ++ LF ++ "      items {"
               ++ LF ++ "        " ++ join INDENT10 (Config.fields config)
               ++ LF ++ "      }"
               ++ LF ++ "      endCursor"
               ++ LF ++ "      hasNextPage"
               ++ LF ++ "    }"
               ++ LF ++ "  }"
      /\ contains q (Config.queryName config)
      /\ Forall (contains q) (Config.fields config)
      /\ in_order (Config.queryName config :: Config.fields config) q.
Proof.
  intros key config H. apply registry_In_get in H.
  exists (query_text config Params.empty).
  split; [now apply buildQuery_Own|].
  split; [reflexivity|].
  assert (O : in_order (Config.queryName config :: Config.fields config)
                       (query_text config Params.empty)).
  { unfold query_text. cbn [argsStr queryArgs Params.first Params.after Params.filter
      Params.orderBy Params.empty not_nullish has_keys truthy push_if andb].
    change ("query {" ++ LF ++ "    " ++ Config.queryName config ++ "" ++ " {"
              ++ LF ++ "      items {" ++ LF ++ "        " ++ itemsBlock config Params.empty
              ++ LF ++ "      }" ++ LF ++ "      endCursor" ++ LF ++ "      hasNextPage"
              ++ groupByBlock config Params.empty ++ LF ++ "    }" ++ LF ++ "  }")
      with (("query {" ++ LF ++ "    ") ++ Config.queryName config
              ++ ((" {" ++ LF ++ "      items {" ++ LF ++ "        ")
                    ++ join INDENT10 (Config.fields config)
                    ++ (LF ++ "      }" ++ LF ++ "      endCursor" ++ LF
                           ++ "      hasNextPage" ++ LF ++ "    }" ++ LF ++ "  }"))).
    constructor. apply in_order_wrap. apply in_order_join. }
  pose proof (in_order_contains _ _ O) as C. inversion C; subst.
  repeat split; assumption.
Qed.

Lemma buildQuery_default_fields_witness :
  exists q : string,
    buildQuery "UNION_REF_COUNTRY_AREA" Params.empty = Return (query_object q)
    /\ q = "query {" ++ LF ++ "    " ++ Config.queryName UNION_REF_COUNTRY_AREA ++ " {"
             ++ LF ++ "      items {"
             ++ LF ++ "        " ++ join INDENT10 (Config.fields UNION_REF_COUNTRY_AREA)
             ++ LF ++ "      }"
             ++ LF ++ "      endCursor"
             ++ LF ++ "      hasNextPage"
             ++ LF ++ "    }"
             ++ LF ++ "  }"
    /\ contains q (Config.queryName UNION_REF_COUNTRY_AREA)
    /\ Forall (contains q) (Config.fields UNION_REF_COUNTRY_AREA)
    /\ in_order (Config.queryName UNION_REF_COUNTRY_AREA
                   :: Config.fields UNION_REF_COUNTRY_AREA) q.
Proof.
  apply (buildQuery_default_fields "UNION_REF_COUNTRY_AREA" UNION_REF_COUNTRY_AREA).
  simpl. right. right. right. left. reflexivity.
Defined.

Lemma queryArgs_present_iff_witness :
  buildQuery "UNION_REF_COUNTRY_AREA" page_of_usa
  = Return (query_object (query_text UNION_REF_COUNTRY_AREA page_of_usa))
  /\ has_arg "first" (queryArgs page_of_usa) = true
  /\ has_arg "after" (queryArgs page_of_usa) = false.
Proof.
  pose proof (queryArgs_present_iff "UNION_REF_COUNTRY_AREA" UNION_REF_COUNTRY_AREA
                page_of_usa eq_refl) as (B & _ & _ & _ & F & A & _).
  split; [exact B|]. split.
  - apply F. split; discriminate.
  - destruct (has_arg "after" (queryArgs page_of_usa)) eqn:E; [|reflexivity].
    destruct (proj1 A eq_refl) as [U _]. exfalso. apply U. reflexivity.
Defined.

(** C3 as the specification words it fails on an explicit [null]: the
    value of [first] is defined, and the argument list has no [first];
    and on a string: a [filter] that is a string with a character is
    no object, and the argument list has a [filter]. *)
Lemma null_first_omitted_string_filter_kept :
  ~ (has_arg "first" (queryArgs null_first) = true
     <-> Params.first null_first <> VUndefined)
  /\ ~ (has_arg "filter" (queryArgs string_filter) = true
        <-> exists entry entries, Params.filter string_filter = VObject (entry :: entries)).
Proof.
  split.
  - intros [_ H]. assert (D : Params.first null_first <> VUndefined) by discriminate.
    apply H in D. discriminate D.
  - intros [H _]. destruct (H eq_refl) as (entry & entries & E). discriminate E.
Qed.

Example null_first_query :
  buildQuery "UNION_REF_HSCODE" null_first = buildQuery "UNION_REF_HSCODE" Params.empty.
Proof. reflexivity. Qed.

Example string_filter_query :
  buildQuery "UNION_REF_COUNTRY_AREA" string_filter
  = Return (query_object
              ("query {" ++ LF ++ "    uNION_REF_COUNTRY_AREAs(filter: "
                 ++ DQUOTE ++ "abc" ++ DQUOTE ++ ") {"
                 ++ LF ++ "      items {"
                 ++ LF ++ "        "
                 ++ join (LF ++ "          ") (Config.fields UNION_REF_COUNTRY_AREA)
                 ++ LF ++ "      }"
                 ++ LF ++ "      endCursor"
                 ++ LF ++ "      hasNextPage"
                 ++ LF ++ "    }"
                 ++ LF ++ "  }")).
Proof. reflexivity. Qed.

(** C5, at a key that the registry inherits: [constructor] is not a key
    of the registry, the read finds [Object.prototype.constructor], the
    check for an unknown resolver passes, and the call ends with a
    [TypeError] where the descriptor's fields are used, not with the
    error that names the key and lists the resolvers. *)
Theorem inherited_key_raises_TypeError :
  ~ In "constructor" (Object_keys RESOLVER_REGISTRY)
  /\ buildQuery "constructor" Params.empty = Throw TypeError
  /\ buildQuery "constructor" Params.empty
     <> Throw (Error (unknown_resolver_message "constructor")).
Proof.
  split; [|split; [reflexivity | discriminate]].
  simpl. intros [H|[H|[H|[H|[H|[]]]]]]; discriminate H.
Qed.

Lemma own_property_None {A : Type} (entries : list (string * A)) (key : string) :
  ~ In key (Object_keys entries) -> own_property entries key = None.
Proof.
  induction entries as [|[k a] r IH]; simpl; [reflexivity|].
  intros H. destruct (String.eqb_spec k key) as [->|Hne]; [tauto|].
  apply IH. tauto.
Qed.

Lemma contains_join (sep : string) (l : list string) (x : string) :
  In x l -> contains (join sep l) x.
Proof.
  intros H. pose proof (in_order_contains _ _ (in_order_join sep l)) as F.
  rewrite Forall_forall in F. now apply F.
Qed.

(** A key that is neither in the registry nor a member of
    [Object.prototype] is refused with the error that names it and
    lists the keys of the registry. *)
Lemma buildQuery_unknown_resolver (key : string) (p : Params.t) :
  ~ In key (Object_keys RESOLVER_REGISTRY) ->
  ~ In key Object_prototype_names ->
  buildQuery key p = Throw (Error (unknown_resolver_message key))
  /\ contains (unknown_resolver_message key) key
  /\ Forall (contains (unknown_resolver_message key)) (Object_keys RESOLVER_REGISTRY).
Proof.
  intros H1 H2. split; [|split].
  - unfold buildQuery, RESOLVER_REGISTRY_get.
    rewrite (own_property_None _ _ H1).
    apply includes_not_In in H2. now rewrite H2.
  - now exists "Unknown resolver: ",
      (". Available resolvers: " ++ join ", " (Object_keys RESOLVER_REGISTRY)).
  - rewrite Forall_forall. intros k Hk.
    destruct (contains_join ", " _ _ Hk) as (a & b & E).
    exists ("Unknown resolver: " ++ key ++ ". Available resolvers: " ++ a), b.
    unfold unknown_resolver_message. rewrite E.
    now rewrite !append_assoc.
Qed.

(** C7, as the code has it: for a key of the registry [buildQuery]
    returns an object whose one property, [query], holds the query
    text; it does not return the text itself. *)
Theorem buildQuery_returns_query_object :
  forall (key : string) (config : Config.t) (p : Params.t),
    RESOLVER_REGISTRY_get key = Own config ->
    buildQuery key p = Return (VObject [("query", VString (query_text config p))])
    /\ forall s : string, buildQuery key p <> Return (VString s).
Proof.
  intros key config p H. rewrite (buildQuery_Own _ _ _ H).
  split; [reflexivity | discriminate].
Qed.

Lemma buildQuery_returns_query_object_witness :
  buildQuery "TXN_MOF_NON_PROTECT_MT" page_of_usa
  = Return (VObject [("query", VString (query_text TXN_MOF_NON_PROTECT_MT page_of_usa))])
  /\ forall s : string, buildQuery "TXN_MOF_NON_PROTECT_MT" page_of_usa <> Return (VString s).
Proof.
  apply (buildQuery_returns_query_object "TXN_MOF_NON_PROTECT_MT"). reflexivity.
Defined.

(** C7 as the specification words it fails: what [buildQuery] returns
    for a key of the registry is not a string. *)
Lemma buildQuery_result_not_a_string :
  ~ exists q : string, buildQuery "UNION_REF_HSCODE" Params.empty = Return (VString q).
Proof.
  intros [q H]. discriminate H.
Qed.

(** C6: for a key of the registry the call returns a query whose
    selection set is, when fields are requested, the requested names
    that the descriptor knows, in the order of the request, unknown
    names dropped without an error, and the descriptor's fields in the
    order of the registry when none is requested; the names of a
    [groupBy] request are filtered the same way.  Requesting
    [UNKNOWN_FIELD] and [ISO3] from the country/area resolver selects
    [ISO3] only. *)
Theorem fields_and_groupBy_filtering :
  forall (key : string) (config : Config.t) (p : Params.t),
    RESOLVER_REGISTRY_get key = Own config ->
    exists q : string,
      buildQuery key p = Return (query_object q)
      /\ contains q (items_section (selectedFields config p))
      /\ (forall requested,
            Params.fields p = Some requested -> requested <> [] ->
            drops_unknown (Config.fields config) requested (selectedFields config p))
      /\ (Params.fields p = None \/ Params.fields p = Some [] ->
          selectedFields config p = Config.fields config)
      /\ (forall requested,
            Params.groupBy p = Some requested -> requested <> [] ->
            drops_unknown (Config.fields config) requested (groupByFields config p)
            /\ contains q (groupBy_section (groupByFields config p)))
      /\ selectedFields UNION_REF_COUNTRY_AREA unknown_and_ISO3 = ["ISO3"]
      /\ buildQuery "UNION_REF_COUNTRY_AREA"
           (Params.mk VUndefined VUndefined VUndefined VUndefined
              (Some ["UNKNOWN_FIELD"; "ISO3"]) None None)
         = Return (query_object
                     ("query {" ++ LF ++ "    uNION_REF_COUNTRY_AREAs {"
                        ++ LF ++ "      items {"
                        ++ LF ++ "        ISO3"
                        ++ LF ++ "      }"
                        ++ LF ++ "      endCursor"
                        ++ LF ++ "      hasNextPage"
                        ++ LF ++ "    }"
                        ++ LF ++ "  }")).
Proof.
  intros key config p H. exists (query_text config p).
  split; [now apply buildQuery_Own|].
  split; [apply query_text_items|].
  split; [|split; [|split; [|split; reflexivity]]].
  - intros requested E Hne. unfold selectedFields. rewrite E.
    destruct requested as [|x r]; [congruence|].
    cbn [non_empty]. apply filter_drops_unknown.
  - intros [E|E]; unfold selectedFields; rewrite E; reflexivity.
  - intros requested E Hne. split.
    + unfold groupByFields. rewrite E. apply filter_drops_unknown.
    + apply query_text_groupBy. rewrite E.
      destruct requested; [congruence | reflexivity].
Qed.

Lemma fields_and_groupBy_filtering_witness :
  exists q : string,
    buildQuery "UNION_REF_COUNTRY_AREA" unknown_and_ISO3 = Return (query_object q)
    /\ contains q (items_section (selectedFields UNION_REF_COUNTRY_AREA unknown_and_ISO3))
    /\ drops_unknown (Config.fields UNION_REF_COUNTRY_AREA) ["UNKNOWN_FIELD"; "ISO3"]
         (selectedFields UNION_REF_COUNTRY_AREA unknown_and_ISO3)
    /\ drops_unknown (Config.fields UNION_REF_COUNTRY_AREA) ["NOPE"; "AREA_NM"]
         (groupByFields UNION_REF_COUNTRY_AREA unknown_and_ISO3).
Proof.
  destruct (fields_and_groupBy_filtering "UNION_REF_COUNTRY_AREA" UNION_REF_COUNTRY_AREA
              unknown_and_ISO3 eq_refl) as (q & B & C & F & _ & G & _).
  exists q. split; [exact B|]. split; [exact C|]. split.
  - apply F; [reflexivity | discriminate].
  - apply (G ["NOPE"; "AREA_NM"]); [reflexivity | discriminate].
Defined.

(** C10: for a key of the registry, a request of fields of which the
    descriptor knows none returns a query all the same; its selection
    set is empty: the descriptor's fields are not used in its place. *)
Theorem unknown_fields_empty_selection :
  forall (key : string) (config : Config.t) (p : Params.t) (requested : list string),
    RESOLVER_REGISTRY_get key = Own config ->
    Params.fields p = Some requested ->
    requested <> [] ->
    (forall f, In f requested -> ~ In f (Config.fields config)) ->
    exists q : string,
      buildQuery key p = Return (query_object q)
      /\ selectedFields config p = []
      /\ selectedFields config p <> Config.fields config
      /\ contains q ("items {" ++ LF ++ "        " ++ LF ++ "      }").
Proof.
  intros key config p requested H E Hne Hun.
  assert (S : selectedFields config p = []).
  { unfold selectedFields. rewrite E.
    destruct requested as [|x r]; [congruence|].
    cbn [non_empty]. now apply drops_unknown_all. }
  exists (query_text config p).
  split; [now apply buildQuery_Own|].
  split; [exact S|]. split.
  - rewrite S. intros C. symmetry in C. revert C.
    apply (registry_fields_not_empty key). now apply registry_get_Own_In.
  - pose proof (query_text_items config p) as C. rewrite S in C. exact C.
Qed.

Lemma unknown_fields_empty_selection_witness :
  exists q : string,
    buildQuery "UNION_REF_COUNTRY_AREA" unknown_only = Return (query_object q)
    /\ selectedFields UNION_REF_COUNTRY_AREA unknown_only = []
    /\ selectedFields UNION_REF_COUNTRY_AREA unknown_only
       <> Config.fields UNION_REF_COUNTRY_AREA
    /\ contains q ("items {" ++ LF ++ "        " ++ LF ++ "      }").
Proof.
  apply (unknown_fields_empty_selection "UNION_REF_COUNTRY_AREA" UNION_REF_COUNTRY_AREA
           unknown_only ["UNKNOWN_FIELD"]).
  - reflexivity.
  - reflexivity.
  - discriminate.
  - intros f [<-|[]]. simpl.
    intros [H|[H|[H|[H|[H|[H|[H|[]]]]]]]]; discriminate H.
Defined.

Example unknown_only_query :
  buildQuery "UNION_REF_COUNTRY_AREA" unknown_only
  = Return (query_object
              ("query {" ++ LF ++ "    uNION_REF_COUNTRY_AREAs {"
                 ++ LF ++ "      items {"
                 ++ LF ++ "        "
                 ++ LF ++ "      }"
                 ++ LF ++ "      endCursor"
                 ++ LF ++ "      hasNextPage"
                 ++ LF ++ "    }"
                 ++ LF ++ "  }")).
Proof. reflexivity. Qed.

(** ** More on the literal serializer *)

Lemma append_cancel_r (a b c : string) : a ++ c = b ++ c -> a = b.
Proof.
  revert b. induction a as [|x a IH]; intros [|y b] H; simpl in H.
  - reflexivity.
  - apply (f_equal String.length) in H. simpl in H. rewrite length_append in H. lia.
  - apply (f_equal String.length) in H. simpl in H. rewrite length_append in H. lia.
  - injection H as -> H. f_equal. now apply IH.
Qed.

Lemma unquote_quote_char (c : ascii) (r : string) :
  unquote_char (quote_char c ++ r) = Some (c, r).
Proof.
  destruct c as [[] [] [] [] [] [] [] []]; reflexivity.
Qed.

Lemma json_escape_injective (s1 s2 : string) :
  json_escape s1 = json_escape s2 -> s1 = s2.
Proof.
  revert s2. induction s1 as [|c1 r1 IH]; intros [|c2 r2] H; simpl in H.
  - reflexivity.
  - apply (f_equal String.length) in H. rewrite length_append in H. simpl in H.
    pose proof (quote_char_length c2). lia.
  - apply (f_equal String.length) in H. rewrite length_append in H. simpl in H.
    pose proof (quote_char_length c1). lia.
  - apply (f_equal unquote_char) in H. rewrite !unquote_quote_char in H.
    injection H as -> H. f_equal. now apply IH.
Qed.

Lemma after_closing_quote_char (c : ascii) (r : string) :
  after_closing_quote (quote_char c ++ r) = after_closing_quote r.
Proof.
  destruct c as [[] [] [] [] [] [] [] []]; reflexivity.
Qed.

Lemma after_closing_quote_escape (s rest : string) :
  after_closing_quote (json_escape s ++ DQUOTE ++ rest) = Some rest.
Proof.
  induction s as [|c r IH]; [reflexivity|].
  simpl json_escape. rewrite append_assoc, after_closing_quote_char. exact IH.
Qed.

Lemma printable_append (a b : string) : printable (a ++ b) = printable a && printable b.
Proof.
  induction a as [|c a IH]; simpl; [reflexivity|].
  rewrite IH. now rewrite andb_assoc.
Qed.

Lemma printable_quote_char (c : ascii) : printable (quote_char c) = true.
Proof.
  destruct c as [[] [] [] [] [] [] [] []]; reflexivity.
Qed.

Lemma printable_json_escape (s : string) : printable (json_escape s) = true.
Proof.
  induction s as [|c r IH]; [reflexivity|].
  simpl. now rewrite printable_append, printable_quote_char, IH.
Qed.

(** X1: Two strings that the serializer writes the same way are the same
    string: quoting and escaping lose nothing, and no quoted string is
    taken for [ASC] or [DESC]. *)
Theorem string_literal_injective :
  forall s1 s2 : string,
    toGraphQLLiteral (VString s1) = toGraphQLLiteral (VString s2) -> s1 = s2.
Proof.
  intros s1 s2. cbn [toGraphQLLiteral].
  destruct (GRAPHQL_ENUMS_has s1) eqn:E1, (GRAPHQL_ENUMS_has s2) eqn:E2.
  - auto.
  - apply GRAPHQL_ENUMS_has_spec in E1. intros H.
    destruct E1 as [-> | ->]; discriminate H.
  - apply GRAPHQL_ENUMS_has_spec in E2. intros H.
    destruct E2 as [-> | ->]; discriminate H.
  - unfold JSON_stringify. intros H. injection H as H.
    apply append_cancel_r in H. now apply json_escape_injective.
Qed.

Lemma string_literal_injective_witness :
  String "a" (String (ascii_of_nat 34) (String "b" (String (ascii_of_nat 92)
    (String "c" (String (ascii_of_nat 10) "")))))
  = quote_backslash_newline.
Proof.
  apply (string_literal_injective
           (String "a" (String (ascii_of_nat 34) (String "b" (String (ascii_of_nat 92)
              (String "c" (String (ascii_of_nat 10) ""))))))
           quote_backslash_newline).
  reflexivity.
Defined.

(** X2: A string value cannot leave its literal: whatever the string, what
    the serializer writes is [ASC] or [DESC] as it is, or a literal
    between double quotes whose body has no character below U+0020 and
    in which a lexer finds no closing quote before the one that ends
    the literal. *)
Theorem string_literal_closed :
  forall s rest : string,
    (toGraphQLLiteral (VString s) = s /\ (s = "ASC" \/ s = "DESC"))
    \/ exists body : string,
         toGraphQLLiteral (VString s) = DQUOTE ++ body ++ DQUOTE
         /\ printable body = true
         /\ after_closing_quote (body ++ DQUOTE ++ rest) = Some rest.
Proof.
  intros s rest. cbn [toGraphQLLiteral].
  destruct (GRAPHQL_ENUMS_has s) eqn:E.
  - left. split; [reflexivity | now apply GRAPHQL_ENUMS_has_spec].
  - right. exists (json_escape s). split; [reflexivity|].
    split; [apply printable_json_escape | apply after_closing_quote_escape].
Qed.

Lemma JSON_string_body_quote_char (c : ascii) (r : string) :
  JSON_string_body (quote_char c ++ r) = option_map (String c) (JSON_string_body r).
Proof.
  destruct c as [[] [] [] [] [] [] [] []]; reflexivity.
Qed.

Lemma JSON_string_body_escape (s : string) : JSON_string_body (json_escape s) = Some s.
Proof.
  induction s as [|c r IH]; [reflexivity|].
  simpl json_escape. now rewrite JSON_string_body_quote_char, IH.
Qed.

(** C1: a string is emitted as it is, unquoted, exactly when it is
    [ASC] or [DESC]; every other string is emitted between double
    quotes as a JSON string literal: the body stands for the string by
    the grammar of JSON, has no character below U+0020, and no double
    quote of it ends the literal early.  [ASC_COMPANY] is quoted; a
    double quote, a backslash, a line break and a control character
    are escaped; the keys of an object are emitted as they are,
    followed by a colon. *)
Theorem string_bare_iff_enum :
  forall s : string,
    (toGraphQLLiteral (VString s) = s <-> s = "ASC" \/ s = "DESC")
    /\ (s = "ASC" \/ s = "DESC"
        \/ exists body : string,
             toGraphQLLiteral (VString s) = DQUOTE ++ body ++ DQUOTE
             /\ JSON_string_body body = Some s
             /\ printable body = true
             /\ forall rest, after_closing_quote (body ++ DQUOTE ++ rest) = Some rest)
    /\ toGraphQLLiteral (VString s)
       = (if (s =? "ASC") || (s =? "DESC") then s
          else DQUOTE ++ json_escape s ++ DQUOTE)
    /\ toGraphQLLiteral (VString "ASC_COMPANY") = DQUOTE ++ "ASC_COMPANY" ++ DQUOTE
    /\ toGraphQLLiteral (VString quote_backslash_newline)
       = DQUOTE ++ "a" ++ BACKSLASH ++ DQUOTE ++ "b" ++ BACKSLASH ++ BACKSLASH ++ "c"
                ++ BACKSLASH ++ "n" ++ DQUOTE
    /\ toGraphQLLiteral (VString (String (ascii_of_nat 31) ""))
       = DQUOTE ++ BACKSLASH ++ "u001f" ++ DQUOTE
    /\ toGraphQLLiteral (VObject [("ROW", VString "ASC")]) = "{ ROW: ASC }"
    /\ toGraphQLLiteral (VObject [("NAME", VString "ASC_COMPANY")])
       = "{ NAME: " ++ DQUOTE ++ "ASC_COMPANY" ++ DQUOTE ++ " }"
    /\ toGraphQLLiteral
         (VObject [("and", VArray [ VObject [("YEAR", VObject [("eq", VNumber 2024)])];
                                    VObject [("TRADE_FLOW", VObject [("eq", VString "1")])] ])])
       = "{ and: [{ YEAR: { eq: 2024 } }, { TRADE_FLOW: { eq: " ++ DQUOTE ++ "1" ++ DQUOTE
           ++ " } }] }"
    /\ (forall entries : list (string * value),
          toGraphQLLiteral (VObject entries)
          = "{ " ++ join ", "
                      (map (fun kv => fst kv ++ ": " ++ toGraphQLLiteral (snd kv)) entries)
                 ++ " }").
Proof.
  intros s. split; [|split; [|split; [|repeat split]]].
  - simpl. destruct (GRAPHQL_ENUMS_has s) eqn:E.
    + apply GRAPHQL_ENUMS_has_spec in E. tauto.
    + split.
      * intros H. pose proof (JSON_stringify_length s) as L. rewrite H in L. lia.
      * intros H. apply GRAPHQL_ENUMS_has_spec in H. congruence.
  - cbn [toGraphQLLiteral]. destruct (GRAPHQL_ENUMS_has s) eqn:E.
    + apply GRAPHQL_ENUMS_has_spec in E. tauto.
    + right. right. exists (json_escape s). split; [reflexivity|].
      split; [apply JSON_string_body_escape|].
      split; [apply printable_json_escape|].
      intros rest. apply after_closing_quote_escape.
  - simpl. unfold GRAPHQL_ENUMS_has, includes. simpl.
    rewrite orb_false_r. reflexivity.
Qed.

(** ** More on the aggregation block builder *)

Lemma Set_add_all_NoDup_app (l seen : list string) :
  NoDup (seen ++ l)%list -> Set_add_all seen l = (seen ++ l)%list.
Proof.
  revert seen. induction l as [|x r IH]; intros seen H; simpl.
  - now rewrite app_nil_r.
  - assert (Hx : includes seen x = false).
    { apply includes_not_In. intros Hin.
      apply NoDup_remove_2 in H. apply H. apply in_or_app. now left. }
    rewrite Hx. rewrite IH; rewrite <- app_assoc; [reflexivity | exact H].
Qed.

Lemma Set_add_all_length (l seen : list string) :
  List.length (Set_add_all seen l) <= List.length seen + List.length l.
Proof.
  revert seen. induction l as [|x r IH]; intros seen; simpl; [lia|].
  destruct (includes seen x).
  - specialize (IH seen). lia.
  - specialize (IH (seen ++ [x])%list). rewrite length_app in IH. simpl in IH. lia.
Qed.

Lemma Set_add_all_same (c : string) (l : list string) :
  (forall x, In x l -> x = c) -> Set_add_all [c] l = [c].
Proof.
  induction l as [|x r IH]; intros H; simpl; [reflexivity|].
  rewrite (H x (or_introl eq_refl)), String.eqb_refl. simpl.
  apply IH. intros y Hy. apply H. now right.
Qed.

Lemma buildAggregationBlock_lines (numericFields : list string) (requested : list Aggregation.t) :
  requested <> [] ->
  buildAggregationBlock (Some requested) numericFields
  = aggregations_block (join INDENT10 (aggregation_lines numericFields requested)).
Proof.
  destruct requested; [congruence | reflexivity].
Qed.

Lemma aggPart_fragment_of_request (numericFields : list string) (agg : Aggregation.t) :
  aggPart numericFields agg = fragment_of_request numericFields agg.
Proof.
  unfold aggPart, fragment_of_request, or_default, given.
  destruct agg as [[f|] fn]; cbn [Aggregation.field Aggregation.function]; [|reflexivity].
  destruct f as [|c f'].
  - reflexivity.
  - cbn [String.eqb negb andb].
    destruct (in_dec string_dec (String c f') numericFields) as [Hin|Hout].
    + apply includes_In in Hin. rewrite Hin.
      destruct fn as [[|d fn']|]; reflexivity.
    + apply includes_not_In in Hout. now rewrite Hout.
Qed.

Lemma single_line_append (a b : string) :
  single_line (a ++ b) = single_line a && single_line b.
Proof.
  induction a as [|c a IH]; simpl; [reflexivity|].
  rewrite IH. now rewrite andb_assoc.
Qed.

Lemma split_lines_first (a b : string) :
  single_line a = true -> split_lines (a ++ LF ++ b) = a :: split_lines b.
Proof.
  induction a as [|c a IH]; intros H; [reflexivity|].
  simpl in H. apply andb_prop in H. destruct H as [Hc Ha].
  change (String c a ++ LF ++ b) with (String c (a ++ LF ++ b)).
  cbn [split_lines]. rewrite (IH Ha).
  destruct (Nat.eqb (nat_of_ascii c) 10); [discriminate Hc | reflexivity].
Qed.

Lemma split_lines_last (a : string) : single_line a = true -> split_lines a = [a].
Proof.
  induction a as [|c a IH]; intros H; [reflexivity|].
  simpl in H. apply andb_prop in H. destruct H as [Hc Ha].
  cbn [split_lines]. rewrite (IH Ha).
  destruct (Nat.eqb (nat_of_ascii c) 10); [discriminate Hc | reflexivity].
Qed.

Lemma split_lines_indented (lines : list string) (last : string) :
  lines <> [] ->
  Forall (fun l => single_line l = true) lines ->
  single_line last = true ->
  split_lines ("          " ++ join (LF ++ "          ") lines ++ LF ++ last)
  = (map (fun l => ("          " ++ l)%string) lines ++ [last])%list.
Proof.
  intros Hne Hall Hlast. induction lines as [|x r IH]; [congruence|].
  inversion Hall as [|? ? Hx Hr]; subst.
  destruct r as [|y r'].
  - change (join (LF ++ "          ") [x]) with x.
    rewrite <- append_assoc, split_lines_first.
    + now rewrite split_lines_last.
    + rewrite single_line_append. now rewrite Hx.
  - change (join (LF ++ "          ") (x :: y :: r'))
      with (x ++ (LF ++ "          ") ++ join (LF ++ "          ") (y :: r')).
    replace ("          " ++ (x ++ (LF ++ "          ")
                              ++ join (LF ++ "          ") (y :: r')) ++ LF ++ last)
      with (("          " ++ x) ++ LF
              ++ ("          " ++ join (LF ++ "          ") (y :: r') ++ LF ++ last))
      by (now rewrite !append_assoc).
    rewrite split_lines_first.
    + rewrite IH by (discriminate || assumption). reflexivity.
    + rewrite single_line_append. now rewrite Hx.
Qed.

Lemma buildAggregationBlock_text (numericFields : list string) (requested : list Aggregation.t) :
  requested <> [] ->
  buildAggregationBlock (Some requested) numericFields
  = "aggregations {" ++ LF ++ "          "
      ++ join (LF ++ "          ") (unique (map (fragment_of_request numericFields) requested))
      ++ LF ++ "        }".
Proof.
  intros Hne. rewrite buildAggregationBlock_lines by assumption.
  unfold aggregation_lines.
  rewrite (map_ext _ _ (aggPart_fragment_of_request numericFields)).
  unfold aggregations_block, INDENT10. now rewrite !append_assoc.
Qed.

Lemma fragment_of_request_single_line (numericFields : list string) (agg : Aggregation.t) :
  names_on_one_line agg -> single_line (fragment_of_request numericFields agg) = true.
Proof.
  intros [Hfn Hf]. unfold fragment_of_request, given.
  destruct agg as [[[|c f]|] fn]; cbn [Aggregation.field Aggregation.function] in *;
    try reflexivity.
  destruct (in_dec string_dec (String c f) numericFields); [|reflexivity].
  rewrite !single_line_append, (Hf _ eq_refl).
  destruct fn as [[|d fn']|]; try reflexivity.
  now rewrite (Hfn _ eq_refl).
Qed.

Lemma block_split_lines (numericFields : list string) (requested : list Aggregation.t) :
  requested <> [] ->
  Forall names_on_one_line requested ->
  split_lines (buildAggregationBlock (Some requested) numericFields)
  = ("aggregations {"
       :: map (fun l => ("          " ++ l)%string)
              (unique (map (fragment_of_request numericFields) requested))
       ++ ["        }"])%list.
Proof.
  intros Hne Hall. rewrite buildAggregationBlock_text by assumption.
  rewrite (split_lines_first "aggregations {") by reflexivity. f_equal.
  apply split_lines_indented; [| |reflexivity].
  - destruct requested as [|a r]; [congruence|].
    intros E. assert (I : In (fragment_of_request numericFields a)
                             (unique (map (fragment_of_request numericFields) (a :: r))))
      by (apply unique_In; now left).
    rewrite E in I. destruct I.
  - rewrite Forall_forall. intros l Hl. apply (proj1 (unique_In _ _)) in Hl.
    apply in_map_iff in Hl. destruct Hl as (agg & <- & Hagg).
    apply fragment_of_request_single_line. rewrite Forall_forall in Hall. now apply Hall.
Qed.

(** C2, as the code has it: without requests (absent or empty list)
    the block holds a bare [count] only; otherwise the text is
    [aggregations {], the fragments joined by a line break and ten
    spaces, and the closing brace.  The fragment of a request is
    [function(field: <field>)] when the field is given (present and
    not the empty string) and is a numeric field, with [sum] when no
    function is given (absent or the empty string), and [count]
    otherwise; each fragment is there once whatever the number of
    requests that give it, and stands in the text; when no name has a
    line break, the lines of the text are the opening line, one line
    per fragment and the closing line. *)
Theorem buildAggregationBlock_spec :
  forall (numericFields : list string) (requested : list Aggregation.t),
    buildAggregationBlock None numericFields
    = "aggregations {" ++ LF ++ "          count" ++ LF ++ "        }"
    /\ buildAggregationBlock (Some []) numericFields
       = "aggregations {" ++ LF ++ "          count" ++ LF ++ "        }"
    /\ (requested <> [] ->
        exists fragments : list string,
          buildAggregationBlock (Some requested) numericFields
          = "aggregations {" ++ LF ++ "          "
              ++ join (LF ++ "          ") fragments ++ LF ++ "        }"
          /\ NoDup fragments
          /\ (forall s, In s fragments
                        <-> exists agg, In agg requested
                                        /\ s = fragment_of_request numericFields agg)
          /\ (forall agg, In agg requested ->
                count_occ string_dec fragments (fragment_of_request numericFields agg) = 1
                /\ contains (buildAggregationBlock (Some requested) numericFields)
                            (fragment_of_request numericFields agg))
          /\ (Forall names_on_one_line requested ->
              split_lines (buildAggregationBlock (Some requested) numericFields)
              = ("aggregations {" :: map (fun l => ("          " ++ l)%string) fragments
                   ++ ["        }"])%list))
    /\ buildAggregationBlock (Some sum_X_twice) ["X"]
       = "aggregations {" ++ LF ++ "          sum(field: X)" ++ LF ++ "        }"
    /\ buildAggregationBlock (Some [Aggregation.mk (Some "X") None]) ["X"]
       = "aggregations {" ++ LF ++ "          sum(field: X)" ++ LF ++ "        }"
    /\ buildAggregationBlock
         (Some [Aggregation.mk (Some "ROW") (Some "max");
                Aggregation.mk (Some "NOT_NUMERIC") (Some "avg");
                Aggregation.mk (Some "ROW") (Some "max");
                Aggregation.mk None None])
         ["ROW"; "AREA_sort"]
       = "aggregations {" ++ LF ++ "          max(field: ROW)"
                          ++ LF ++ "          count" ++ LF ++ "        }".
Proof.
  intros nf requested.
  split; [reflexivity|]. split; [reflexivity|].
  split; [|repeat split; reflexivity].
  intros Hne. exists (unique (map (fragment_of_request nf) requested)).
  split; [now apply buildAggregationBlock_text|].
  split; [apply unique_NoDup|]. split; [|split].
  - intros s. rewrite unique_In, in_map_iff. split.
    + intros (agg & E & H). now exists agg.
    + intros (agg & H & E). now exists agg.
  - intros agg Hagg.
    assert (I : In (fragment_of_request nf agg) (unique (map (fragment_of_request nf) requested)))
      by (apply unique_In; now apply in_map).
    split.
    + apply (proj1 (NoDup_count_occ' string_dec _)); [apply unique_NoDup | exact I].
    + rewrite buildAggregationBlock_text by assumption.
      destruct (contains_join (LF ++ "          ") _ _ I) as (a & b & E).
      exists ("aggregations {" ++ LF ++ "          " ++ a), (b ++ LF ++ "        }").
      rewrite E. now rewrite !append_assoc.
  - intros Hall. now apply block_split_lines.
Qed.

(** C2 as the specification words it fails on empty names: a function
    that is the empty string is given, not omitted, and the code writes
    [sum]; a field that is the empty string is a member of a numeric
    field list that has it, and the code writes [count]. *)
Lemma empty_names_not_as_claimed :
  (requested_fragment ["ROW"] empty_function = "(field: ROW)"
   /\ buildAggregationBlock (Some [empty_function]) ["ROW"]
      = "aggregations {" ++ LF ++ "          sum(field: ROW)" ++ LF ++ "        }"
   /\ buildAggregationBlock (Some [empty_function]) ["ROW"]
      <> "aggregations {" ++ LF ++ "          "
           ++ requested_fragment ["ROW"] empty_function ++ LF ++ "        }")
  /\ (In "" [""]
      /\ requested_fragment [""] empty_field = "avg(field: )"
      /\ buildAggregationBlock (Some [empty_field]) [""]
         = "aggregations {" ++ LF ++ "          count" ++ LF ++ "        }"
      /\ buildAggregationBlock (Some [empty_field]) [""]
         <> "aggregations {" ++ LF ++ "          "
              ++ requested_fragment [""] empty_field ++ LF ++ "        }").
Proof.
  split.
  - split; [reflexivity|]. split; [reflexivity | discriminate].
  - split; [now left|]. split; [reflexivity|]. split; [reflexivity | discriminate].
Qed.

(** X3: For requests whose names have no line break, the text of the
    block is the line [aggregations {], then one line per fragment,
    after ten spaces, then the closing line; the fragment lines are
    pairwise distinct, one at least and one per request at most. *)
Theorem aggregation_lines_bounds :
  forall (numericFields : list string) (requested : list Aggregation.t),
    requested <> [] ->
    Forall names_on_one_line requested ->
    exists fragments : list string,
      split_lines (buildAggregationBlock (Some requested) numericFields)
      = ("aggregations {" :: map (fun l => ("          " ++ l)%string) fragments
           ++ ["        }"])%list
      /\ NoDup fragments
      /\ 1 <= List.length fragments <= List.length requested
      /\ List.length (split_lines (buildAggregationBlock (Some requested) numericFields))
         <= 2 + List.length requested
      /\ (forall s, In s fragments
                    <-> exists agg, In agg requested
                                    /\ s = fragment_of_request numericFields agg).
Proof.
  intros nf requested Hne Hall.
  exists (unique (map (fragment_of_request nf) requested)).
  assert (B : 1 <= List.length (unique (map (fragment_of_request nf) requested))
                <= List.length requested).
  { split.
    - destruct requested as [|a r]; [congruence|].
      assert (I : In (fragment_of_request nf a)
                     (unique (map (fragment_of_request nf) (a :: r))))
        by (apply unique_In; now left).
      destruct (unique (map (fragment_of_request nf) (a :: r))); [destruct I | simpl; lia].
    - unfold unique.
      pose proof (Set_add_all_length (map (fragment_of_request nf) requested) []) as L.
      rewrite length_map in L. exact L. }
  split; [now apply block_split_lines|].
  split; [apply unique_NoDup|]. split; [exact B|]. split.
  - rewrite block_split_lines by assumption.
    cbn [List.length]. rewrite length_app, length_map. simpl. lia.
  - intros s. rewrite unique_In, in_map_iff. split.
    + intros (agg & E & H). now exists agg.
    + intros (agg & H & E). now exists agg.
Qed.

Lemma aggregation_lines_bounds_witness :
  exists fragments : list string,
    split_lines (buildAggregationBlock (Some sum_X_twice) ["X"])
    = ("aggregations {" :: map (fun l => ("          " ++ l)%string) fragments ++ ["        }"])%list
    /\ NoDup fragments
    /\ 1 <= List.length fragments <= List.length sum_X_twice
    /\ List.length (split_lines (buildAggregationBlock (Some sum_X_twice) ["X"]))
       <= 2 + List.length sum_X_twice
    /\ (forall s, In s fragments
                  <-> exists agg, In agg sum_X_twice /\ s = fragment_of_request ["X"] agg).
Proof.
  apply (aggregation_lines_bounds ["X"] sum_X_twice).
  - discriminate.
  - repeat constructor; intros s [= <-]; reflexivity.
Defined.

(** X4: Requests that give pairwise distinct fragments are written in the
    order of the request: the text of the block is the fragments of
    the requests, one after the other, and, when no name has a line
    break, its lines are the opening line, the fragment of each
    request in turn and the closing line. *)
Theorem aggregation_lines_in_request_order :
  forall (numericFields : list string) (requested : list Aggregation.t),
    requested <> [] ->
    NoDup (map (fragment_of_request numericFields) requested) ->
    buildAggregationBlock (Some requested) numericFields
    = "aggregations {" ++ LF ++ "          "
        ++ join (LF ++ "          ") (map (fragment_of_request numericFields) requested)
        ++ LF ++ "        }"
    /\ (Forall names_on_one_line requested ->
        split_lines (buildAggregationBlock (Some requested) numericFields)
        = ("aggregations {"
             :: map (fun agg => ("          " ++ fragment_of_request numericFields agg)%string)
                  requested
             ++ ["        }"])%list).
Proof.
  intros nf requested Hne Hnd.
  assert (U : unique (map (fragment_of_request nf) requested)
              = map (fragment_of_request nf) requested)
    by (unfold unique; now rewrite Set_add_all_NoDup_app).
  split.
  - rewrite buildAggregationBlock_text by assumption. now rewrite U.
  - intros Hall. rewrite block_split_lines by assumption.
    rewrite U, map_map. reflexivity.
Qed.

Lemma aggregation_lines_in_request_order_witness :
  buildAggregationBlock (Some sum_ROW_avg_AREA_sort) ["ROW"; "AREA_sort"]
  = "aggregations {" ++ LF ++ "          "
      ++ join (LF ++ "          ")
              (map (fragment_of_request ["ROW"; "AREA_sort"]) sum_ROW_avg_AREA_sort)
      ++ LF ++ "        }"
  /\ (Forall names_on_one_line sum_ROW_avg_AREA_sort ->
      split_lines (buildAggregationBlock (Some sum_ROW_avg_AREA_sort) ["ROW"; "AREA_sort"])
      = ("aggregations {"
           :: map (fun agg => ("          " ++ fragment_of_request ["ROW"; "AREA_sort"] agg)%string)
                  sum_ROW_avg_AREA_sort
           ++ ["        }"])%list).
Proof.
  apply (aggregation_lines_in_request_order ["ROW"; "AREA_sort"] sum_ROW_avg_AREA_sort).
  - discriminate.
  - simpl. repeat constructor; simpl; intuition discriminate.
Defined.

(** The text of the witness above, in full. *)
Example sum_ROW_avg_AREA_sort_text :
  buildAggregationBlock (Some sum_ROW_avg_AREA_sort) ["ROW"; "AREA_sort"]
  = "aggregations {" ++ LF ++ "          sum(field: ROW)"
                     ++ LF ++ "          avg(field: AREA_sort)" ++ LF ++ "        }".
Proof. reflexivity. Qed.

(** X5: When no request names a numeric field, the block is the one built
    without requests: a bare [count], once, whatever the number of
    requests and the functions they name. *)
Theorem aggregation_all_downgraded :
  forall (numericFields : list string) (requested : list Aggregation.t),
    Forall (fun agg => forall f, Aggregation.field agg = Some f -> ~ In f numericFields)
           requested ->
    buildAggregationBlock (Some requested) numericFields
    = buildAggregationBlock None numericFields.
Proof.
  intros nf requested H.
  destruct requested as [|a r]; [reflexivity|].
  rewrite buildAggregationBlock_lines by discriminate.
  assert (C : forall x, In x (map (aggPart nf) (a :: r)) -> x = "count").
  { intros x Hx. apply in_map_iff in Hx. destruct Hx as (agg & <- & Hagg).
    rewrite Forall_forall in H. specialize (H agg Hagg).
    unfold aggPart. destruct (Aggregation.field agg) as [f|]; [|reflexivity].
    assert (E : includes nf f = false) by (apply includes_not_In; now apply H).
    now rewrite E, andb_false_r. }
  unfold aggregation_lines, unique.
  cbn [map Set_add_all includes existsb app].
  rewrite (C (aggPart nf a)) by (now left).
  rewrite Set_add_all_same; [reflexivity|].
  intros x Hx. apply C. now right.
Qed.

Lemma aggregation_all_downgraded_witness :
  buildAggregationBlock
    (Some [Aggregation.mk (Some "ISO3") (Some "avg"); Aggregation.mk None (Some "max")])
    ["ROW"]
  = buildAggregationBlock None ["ROW"].
Proof.
  apply aggregation_all_downgraded.
  repeat constructor; simpl; intros f [= <-]; intuition discriminate.
Defined.

(** ** More on the query assembler *)



(** X7: The names of the selection set and of the group-by block are
    fields of the descriptor, whatever the request: a name that the
    registry does not have is never written there. *)
Theorem selected_names_are_fields :
  forall (config : Config.t) (p : Params.t),
    incl (selectedFields config p) (Config.fields config)
    /\ incl (groupByFields config p) (Config.fields config).
Proof.
  intros config p. split; intros f.
  - unfold selectedFields. destruct (non_empty (Params.fields p)); [|auto].
    rewrite filter_In. intros [_ H]. now apply includes_In.
  - unfold groupByFields. rewrite filter_In. intros [_ H]. now apply includes_In.
Qed.

(** X8: Without a group-by request the aggregations are not read: the
    result of [buildQuery] is the same whatever they are. *)
Theorem aggregations_ignored_without_groupBy :
  forall (key : string) (p : Params.t) (aggregations : option (list Aggregation.t)),
    non_empty (Params.groupBy p) = false ->
    buildQuery key (with_aggregations p aggregations) = buildQuery key p.
Proof.
  intros key p aggs H. unfold buildQuery.
  destruct (RESOLVER_REGISTRY_get key) as [config| |]; try reflexivity.
  do 4 f_equal.
  unfold query_text, groupByBlock, with_aggregations; cbn [Params.groupBy].
  rewrite H. reflexivity.
Qed.

Lemma aggregations_ignored_without_groupBy_witness :
  buildQuery "UNION_REF_COUNTRY_AREA" (with_aggregations page_of_usa (Some sum_X_twice))
  = buildQuery "UNION_REF_COUNTRY_AREA" page_of_usa.
Proof.
  apply aggregations_ignored_without_groupBy. reflexivity.
Defined.

(** X9: A group-by request of which the descriptor knows no name still
    gives a group-by block, with an empty list of fields. *)
Theorem groupBy_unknown_names_only :
  forall (key : string) (config : Config.t) (p : Params.t) (requested : list string),
    RESOLVER_REGISTRY_get key = Own config ->
    Params.groupBy p = Some requested ->
    requested <> [] ->
    (forall f, In f requested -> ~ In f (Config.fields config)) ->
    exists q : string,
      buildQuery key p = Return (query_object q)
      /\ groupByFields config p = []
      /\ contains q ("groupBy(fields: []) {" ++ LF ++ "        fields {" ++ INDENT10
                       ++ LF ++ "        }").
Proof.
  intros key config p requested H E Hne Hun.
  assert (G : groupByFields config p = []).
  { unfold groupByFields. rewrite E. now apply drops_unknown_all. }
  exists (query_text config p).
  split; [now apply buildQuery_Own|]. split; [exact G|].
  assert (N : non_empty (Params.groupBy p) = true).
  { rewrite E. destruct requested; [congruence | reflexivity]. }
  pose proof (query_text_groupBy config p N) as C. rewrite G in C. exact C.
Qed.

Lemma groupBy_unknown_names_only_witness :
  exists q : string,
    buildQuery "UNION_REF_COUNTRY_AREA" group_by_unknown = Return (query_object q)
    /\ groupByFields UNION_REF_COUNTRY_AREA group_by_unknown = []
    /\ contains q ("groupBy(fields: []) {" ++ LF ++ "        fields {" ++ INDENT10
                     ++ LF ++ "        }").
Proof.
  apply (groupBy_unknown_names_only "UNION_REF_COUNTRY_AREA" UNION_REF_COUNTRY_AREA
           group_by_unknown ["NOPE"]).
  - reflexivity.
  - reflexivity.
  - discriminate.
  - intros f [<-|[]]. simpl.
    intros [H|[H|[H|[H|[H|[H|[H|[]]]]]]]]; discriminate H.
Defined.

Lemma count_occ_filter_kept (keep : string -> bool) (l : list string) (f : string) :
  keep f = true ->
  count_occ string_dec (List.filter keep l) f = count_occ string_dec l f.
Proof.
  intros K. induction l as [|x r IH]; simpl; [reflexivity|].
  destruct (string_dec x f) as [->|Hne].
  - rewrite K. simpl. destruct (string_dec f f); [now rewrite IH | congruence].
  - destruct (keep x); simpl; [|exact IH].
    destruct (string_dec x f); [congruence | exact IH].
Qed.

(** X10: A field of the descriptor is selected as many times as it is
    requested: the selection set is filtered, not deduplicated. *)
Theorem selection_keeps_repetitions :
  forall (config : Config.t) (p : Params.t) (requested : list string) (f : string),
    Params.fields p = Some requested ->
    requested <> [] ->
    In f (Config.fields config) ->
    count_occ string_dec (selectedFields config p) f = count_occ string_dec requested f.
Proof.
  intros config p requested f E Hne Hin.
  unfold selectedFields. rewrite E.
  destruct requested as [|x r]; [congruence|]. cbn [non_empty].
  apply count_occ_filter_kept. now apply includes_In.
Qed.

Lemma selection_keeps_repetitions_witness :
  count_occ string_dec (selectedFields UNION_REF_COUNTRY_AREA ISO3_twice) "ISO3"
  = count_occ string_dec ["ISO3"; "ISO3"] "ISO3".
Proof.
  apply (selection_keeps_repetitions UNION_REF_COUNTRY_AREA ISO3_twice).
  - reflexivity.
  - discriminate.
  - simpl. now left.
Defined.

(** X11: Parameters that are null, undefined or empty count as absent: with
    [first] and [after] nullish, [filter] and [orderBy] without a key
    and no field or group-by name, the result is the one of the empty
    parameter bag, whatever the aggregations. *)
Theorem empty_parameters_as_absent :
  forall (key : string) (p : Params.t),
    not_nullish (Params.first p) = false ->
    not_nullish (Params.after p) = false ->
    has_keys (Params.filter p) = false ->
    has_keys (Params.orderBy p) = false ->
    non_empty (Params.fields p) = false ->
    non_empty (Params.groupBy p) = false ->
    buildQuery key p = buildQuery key Params.empty.
Proof.
  intros key p H1 H2 H3 H4 H5 H6. unfold buildQuery.
  destruct (RESOLVER_REGISTRY_get key) as [config| |]; try reflexivity.
  do 4 f_equal.
  unfold query_text, groupByBlock, itemsBlock, selectedFields, argsStr, queryArgs, push_if.
  rewrite H1, H2, H3, H4, H5, H6. reflexivity.
Qed.

Lemma empty_parameters_as_absent_witness :
  buildQuery "UNION_REF_HSCODE" all_empty = buildQuery "UNION_REF_HSCODE" Params.empty.
Proof.
  apply empty_parameters_as_absent; reflexivity.
Defined.

(** X12: Each resolver that [getRegisteredResolvers] lists can be queried:
    the resolvers are listed under the keys of the registry, in its
    order, and [buildQuery] on a listed key and no parameters returns a
    query that names the listed query name and then the listed fields,
    in their order. *)
Theorem registered_resolvers_build :
  map Resolver.key getRegisteredResolvers = Object_keys RESOLVER_REGISTRY
  /\ forall r : Resolver.t,
       In r getRegisteredResolvers ->
       incl (Resolver.numericFields r) (Resolver.fields r)
       /\ exists q : string,
            buildQuery (Resolver.key r) Params.empty = Return (query_object q)
            /\ in_order (Resolver.queryName r :: Resolver.fields r) q.
Proof.
  split; [reflexivity|].
  intros r H. unfold getRegisteredResolvers in H. apply in_map_iff in H.
  destruct H as ([key config] & <- & Hin). cbn [Resolver.key Resolver.queryName
    Resolver.fields Resolver.numericFields fst snd].
  split.
  - assert (A : forallb (fun kc => forallb (includes (Config.fields (snd kc)))
                                           (Config.numericFields (snd kc)))
                        RESOLVER_REGISTRY = true) by (vm_compute; reflexivity).
    rewrite forallb_forall in A. specialize (A _ Hin). simpl in A.
    rewrite forallb_forall in A. intros f Hf. apply includes_In. now apply A.
  - apply registry_In_get in Hin. exists (query_text config Params.empty).
    split; [now apply buildQuery_Own|].
    change (query_text config Params.empty)
      with (("query {" ++ LF ++ "    ") ++ Config.queryName config
              ++ ((" {" ++ LF ++ "      items {" ++ LF ++ "        ")
                    ++ join INDENT10 (Config.fields config)
                    ++ (LF ++ "      }" ++ LF ++ "      endCursor" ++ LF
                           ++ "      hasNextPage" ++ LF ++ "    }" ++ LF ++ "  }"))).
    constructor. apply in_order_wrap. apply in_order_join.
Qed.

(** ** The resolver tools *)

Lemma join_cons (sep x : string) (rest : list string) :
  exists tail : string, join sep (x :: rest) = x ++ tail.
Proof.
  destruct rest as [|y r].
  - exists "". simpl. now rewrite append_nil_r.
  - now exists (sep ++ join sep (y :: r)).
Qed.

Lemma argsStr_first (p : Params.t) :
  not_nullish (Params.first p) = true ->
  exists tail : string,
    argsStr p = "(first: " ++ toGraphQLLiteral (Params.first p) ++ tail.
Proof.
  intros H. unfold argsStr. rewrite queryArgs_parts, H. cbn [optional app].
  match goal with |- context [join ", " (?x :: ?r)] =>
    destruct (join_cons ", " x r) as (t & ->) end.
  exists (t ++ ")"). simpl. now rewrite !append_assoc.
Qed.

Lemma query_text_first (config : Config.t) (p : Params.t) :
  not_nullish (Params.first p) = true ->
  contains (query_text config p)
           (Config.queryName config ++ "(first: " ++ toGraphQLLiteral (Params.first p)).
Proof.
  intros H. destruct (argsStr_first p H) as (t & E).
  destruct (query_text_queryName_args config p) as (a & b & Q).
  exists a, (t ++ " {" ++ b). rewrite Q, E.
  now rewrite !append_assoc.
Qed.

Lemma String_of_number_reads_back (n : Z) :
  option_map Z.of_int (NilZero.int_of_string (String_of_number n)) = Some n.
Proof.
  unfold String_of_number. rewrite NilZero.isi.
  - cbn [option_map]. now rewrite DecimalZ.of_to.
  - destruct n; cbn [Z.to_int]; try discriminate.
    intros [= E]. now apply (Unsigned.to_uint_nonnil p).
  - destruct n; cbn [Z.to_int]; try discriminate.
    intros [= E]. now apply (Unsigned.to_uint_nonnil p).
Qed.

Lemma queryArgs_with_number (p : Params.t) (n : Z) :
  queryArgs (with_first p (VNumber n))
  = ("first: " ++ String_of_number n) :: queryArgs (with_first p VUndefined).
Proof.
  rewrite !queryArgs_parts. reflexivity.
Qed.

Lemma query_text_args (config : Config.t) (p : Params.t) :
  queryArgs p <> [] ->
  contains (query_text config p)
           (Config.queryName config ++ "(" ++ join ", " (queryArgs p) ++ ") {").
Proof.
  intros H. destruct (query_text_queryName_args config p) as (a & b & Q).
  exists a, b. rewrite Q. unfold argsStr.
  destruct (queryArgs p) as [|x r]; [congruence|].
  now rewrite !append_assoc.
Qed.

(** X13: The query that the handler of a resolver tool sends always has a
    [first] argument, the first one of the list, and its value is at
    most [maxPageSize]: it is the caller's [first] when that is not
    zero and not above the maximum (a negative one goes through), and
    the default page size, bounded the same way, when the caller gives
    none or zero.  For a safe integer the argument is [first: ]
    followed by the decimal numeral, which reads back as the page
    size, and then a comma and the caller's other arguments or the
    closing parenthesis. *)
Theorem handler_query_page_size :
  forall (resolver : string) (descriptor : Config.t) (config : ServerConfig.t)
         (first : option Z) (params : Params.t),
    RESOLVER_REGISTRY_get resolver = Own descriptor ->
    exists q : string,
      handler_query resolver config first params = Return (query_object q)
      /\ (safe_integer (page_size config first) ->
          contains q (Config.queryName descriptor ++ "("
                        ++ join ", " (("first: " ++ String_of_number (page_size config first))
                                        :: queryArgs (with_first params VUndefined))
                        ++ ") {")
          /\ option_map Z.of_int
               (NilZero.int_of_string (String_of_number (page_size config first)))
             = Some (page_size config first))
      /\ (page_size config first <= ServerConfig.maxPageSize config)%Z
      /\ (forall n, first = Some n -> n <> 0%Z ->
                    (n <= ServerConfig.maxPageSize config)%Z ->
                    page_size config first = n)
      /\ (first = None \/ first = Some 0%Z ->
          page_size config first
          = Z.min (ServerConfig.defaultPageSize config) (ServerConfig.maxPageSize config))
      /\ handler_query "UNION_REF_COUNTRY_AREA" default_config (Some 5000%Z) page_of_usa
         = Return (query_object
                     ("query {" ++ LF
                        ++ "    uNION_REF_COUNTRY_AREAs(first: 1000, filter: { ISO3: { eq: "
                        ++ DQUOTE ++ "USA" ++ DQUOTE ++ " } }, orderBy: { ROW: ASC }) {"
                        ++ LF ++ "      items {"
                        ++ LF ++ "        ISO3"
                        ++ LF ++ "          COUNTRY_COMM_ZH"
                        ++ LF ++ "          COUNTRY_COMM_EN"
                        ++ LF ++ "          AREA_ID"
                        ++ LF ++ "          AREA_NM"
                        ++ LF ++ "          ROW"
                        ++ LF ++ "          AREA_sort"
                        ++ LF ++ "      }"
                        ++ LF ++ "      endCursor"
                        ++ LF ++ "      hasNextPage"
                        ++ LF ++ "    }"
                        ++ LF ++ "  }"))
      /\ page_size default_config None = 100%Z
      /\ page_size default_config (Some 0%Z) = 100%Z
      /\ page_size default_config (Some 10%Z) = 10%Z
      /\ page_size default_config (Some (-5)%Z) = (-5)%Z.
Proof.
  intros resolver descriptor config first params H.
  exists (query_text descriptor (with_first params (VNumber (page_size config first)))).
  split; [unfold handler_query; now apply buildQuery_Own|].
  split.
  - intros _. split; [|apply String_of_number_reads_back].
    rewrite <- queryArgs_with_number. apply query_text_args.
    rewrite queryArgs_with_number. discriminate.
  - split; [unfold page_size; apply Z.le_min_r|]. split; [|split; [|repeat split]].
    + intros n -> Hn Hle. unfold page_size.
      destruct (Z.eqb_spec n 0); [contradiction | lia].
    + intros [-> | ->]; reflexivity.
Qed.

Lemma handler_query_page_size_witness :
  exists q : string,
    handler_query "UNION_REF_HSCODE" default_config (Some 5000%Z) Params.empty
    = Return (query_object q)
    /\ contains q ("uNION_REF_HSCODEs(first: 1000) {").
Proof.
  destruct (handler_query_page_size "UNION_REF_HSCODE" UNION_REF_HSCODE default_config
              (Some 5000%Z) Params.empty eq_refl) as (q & R & T & _).
  exists q. split; [exact R|].
  assert (S : safe_integer (page_size default_config (Some 5000%Z)))
    by (unfold safe_integer; cbn; lia).
  exact (proj1 (T S)).
Defined.

(** ** The tool on monthly trade by industry group *)

Lemma filter_entries_empty_iff (params : GroupParams.t) :
  filter_entries params = []
  <-> (GroupParams.year params = None \/ GroupParams.year params = Some 0%Z)
      /\ GroupParams.tradeFlow params = None
      /\ (GroupParams.industryKeyword params = None
          \/ GroupParams.industryKeyword params = Some "")
      /\ (GroupParams.country params = None \/ GroupParams.country params = Some "").
Proof.
  unfold filter_entries.
  destruct params as [[y|] [t|] [k|] [c|] o f]; cbn [GroupParams.year GroupParams.tradeFlow
    GroupParams.industryKeyword GroupParams.country];
    try destruct (Z.eqb_spec y 0); try destruct (String.eqb_spec k "");
    try destruct (String.eqb_spec c ""); subst; cbn [app];
    (split; [intros H; try discriminate H | intros (H1 & H2 & H3 & H4)]);
    repeat split; auto;
    try discriminate;
    repeat match goal with
           | H : _ \/ _ |- _ => destruct H
           | H : Some _ = Some _ |- _ => injection H as H
           | H : Some _ = None |- _ => discriminate H
           end; try congruence.
Qed.

(** X14: The filter built from the parameters is absent exactly when the
    caller gives no year (or zero), no trade flow, no keyword (or an
    empty one) and no country (or an empty one); otherwise it is an
    object with a key at least, and the query sent has a [filter]
    argument in exactly that case. *)
Theorem filter_absent_iff_no_criterion :
  forall (config : ServerConfig.t) (params : GroupParams.t),
    (buildFilterFromParams params = VUndefined
     <-> (GroupParams.year params = None \/ GroupParams.year params = Some 0%Z)
         /\ GroupParams.tradeFlow params = None
         /\ (GroupParams.industryKeyword params = None
             \/ GroupParams.industryKeyword params = Some "")
         /\ (GroupParams.country params = None \/ GroupParams.country params = Some ""))
    /\ (buildFilterFromParams params = VUndefined
        \/ exists entry entries, buildFilterFromParams params = VObject (entry :: entries))
    /\ (has_arg "filter" (queryArgs (normalizedParams config params)) = false
        <-> buildFilterFromParams params = VUndefined).
Proof.
  intros config params.
  rewrite <- filter_entries_empty_iff.
  destruct (has_arg_queryArgs (normalizedParams config params)) as (_ & _ & A & _).
  rewrite A. cbn [normalizedParams Params.filter].
  unfold buildFilterFromParams.
  destruct (filter_entries params) as [|e r].
  - split; [tauto|]. split; [now left|]. split; reflexivity.
  - split; [split; discriminate|]. split; [right; now exists e, r|].
    split; discriminate.
Qed.



(** X16: Whatever the parameters, the tool gets a query from [buildQuery]:
    its first argument is [first], the caller's or 50, at most
    [maxPageSize], zero included, written for a safe integer as the
    decimal numeral, which reads back as that number; then come the
    filter, when there is one, and [orderBy: { PERIOD_MONTH: ... }]
    with the direction unquoted, exactly when an order is given; there
    is no [after] argument; the selection is all the fields of the
    resolver in the order of the registry, and there is no group-by
    block. *)
Theorem execute_query_shape :
  forall (config : ServerConfig.t) (params : GroupParams.t),
    exists q : string,
      execute_query config params = Return (query_object q)
      /\ (safe_integer (Z.min (match GroupParams.first params with
                               | Some n => n
                               | None => 50%Z
                               end)
                              (ServerConfig.maxPageSize config)) ->
          contains q ("trade_monthly_by_group_countries("
                        ++ join ", "
                             ((("first: "
                                  ++ String_of_number
                                       (Z.min (match GroupParams.first params with
                                               | Some n => n
                                               | None => 50%Z
                                               end)
                                              (ServerConfig.maxPageSize config)))%string
                                 :: optional (has_keys (buildFilterFromParams params))
                                      ("filter: "
                                         ++ toGraphQLLiteral (buildFilterFromParams params))
                                 ++ match GroupParams.order params with
                                    | Some d => [("orderBy: { PERIOD_MONTH: "
                                                    ++ Direction_name d ++ " }")%string]
                                    | None => []
                                    end)%list)
                        ++ ") {")
          /\ option_map Z.of_int
               (NilZero.int_of_string
                  (String_of_number
                     (Z.min (match GroupParams.first params with
                             | Some n => n
                             | None => 50%Z
                             end)
                            (ServerConfig.maxPageSize config))))
             = Some (Z.min (match GroupParams.first params with
                            | Some n => n
                            | None => 50%Z
                            end)
                           (ServerConfig.maxPageSize config)))
      /\ has_arg "first" (queryArgs (normalizedParams config params)) = true
      /\ has_arg "after" (queryArgs (normalizedParams config params)) = false
      /\ (has_arg "orderBy" (queryArgs (normalizedParams config params)) = true
          <-> GroupParams.order params <> None)
      /\ contains q (items_section (Config.fields trade_monthly_by_group_country))
      /\ groupByBlock trade_monthly_by_group_country (normalizedParams config params) = ""
      /\ execute_query default_config exports_to_us_2024
         = Return (query_object
                     ("query {" ++ LF
                        ++ "    trade_monthly_by_group_countries(first: 0, "
                        ++ "filter: { YEAR: { eq: 2024 }, TRADE_FLOW: { eq: "
                        ++ DQUOTE ++ "出口" ++ DQUOTE ++ " }, COUNTRY_ID: { eq: "
                        ++ DQUOTE ++ "US" ++ DQUOTE ++ " } }, "
                        ++ "orderBy: { PERIOD_MONTH: DESC }) {"
                        ++ LF ++ "      items {"
                        ++ LF ++ "        "
                        ++ join (LF ++ "          ")
                                (Config.fields trade_monthly_by_group_country)
                        ++ LF ++ "      }"
                        ++ LF ++ "      endCursor"
                        ++ LF ++ "      hasNextPage"
                        ++ LF ++ "    }"
                        ++ LF ++ "  }")).
Proof.
  intros config params.
  exists (query_text trade_monthly_by_group_country (normalizedParams config params)).
  destruct (has_arg_queryArgs (normalizedParams config params)) as (A1 & A2 & _ & A4).
  split; [reflexivity|]. split.
  - intros _. split; [|apply String_of_number_reads_back].
    assert (E : queryArgs (normalizedParams config params)
                = (("first: "
                      ++ String_of_number
                           (Z.min (match GroupParams.first params with
                                   | Some n => n
                                   | None => 50%Z
                                   end)
                                  (ServerConfig.maxPageSize config)))%string
                     :: optional (has_keys (buildFilterFromParams params))
                          ("filter: " ++ toGraphQLLiteral (buildFilterFromParams params))
                     ++ match GroupParams.order params with
                        | Some d => [("orderBy: { PERIOD_MONTH: "
                                        ++ Direction_name d ++ " }")%string]
                        | None => []
                        end)%list).
    { rewrite queryArgs_parts. cbn [normalizedParams Params.first Params.after
        Params.filter Params.orderBy not_nullish optional app].
      destruct (GroupParams.order params) as [[]|]; reflexivity. }
    rewrite <- E.
    apply (query_text_args trade_monthly_by_group_country (normalizedParams config params)).
    rewrite E. discriminate.
  - split; [rewrite A1; reflexivity|].
    split; [rewrite A2; reflexivity|]. split.
    + rewrite A4. cbn [normalizedParams Params.orderBy].
      destruct (GroupParams.order params); split; try discriminate; try reflexivity.
      congruence.
    + split; [|split; reflexivity].
      apply (query_text_items trade_monthly_by_group_country (normalizedParams config params)).
Qed.

(** ** The aliases of the tool registry *)

Lemma upper_char_not_lower (d : ascii) :
  is_lower d = true -> is_lower (upper_char d) = false /\ is_underscore (upper_char d) = false.
Proof.
  destruct d as [[] [] [] [] [] [] [] []]; intros H; try discriminate H; split; reflexivity.
Qed.

Lemma camelAlias_head (d : ascii) (r : string) :
  is_lower d = false ->
  exists h t, camelAlias (String d r) = String h t /\ is_lower h = false.
Proof.
  intros H. destruct r as [|e r']; cbn [camelAlias].
  - now exists d, "".
  - destruct (is_underscore d && is_lower e) eqn:E.
    + apply andb_prop in E. destruct E as [_ E].
      exists (upper_char e), (camelAlias r'). split; [reflexivity|].
      now apply upper_char_not_lower.
    + now exists d, (camelAlias (String e r')).
Qed.

Lemma camelAlias_cons2 (c d : ascii) (r : string) :
  camelAlias (String c (String d r))
  = if is_underscore c && is_lower d
    then String (upper_char d) (camelAlias r)
    else String c (camelAlias (String d r)).
Proof. reflexivity. Qed.

Lemma has_snake_cons2 (c d : ascii) (r : string) :
  has_snake (String c (String d r))
  = (is_underscore c && is_lower d) || has_snake (String d r).
Proof. reflexivity. Qed.

Lemma has_snake_cons (c : ascii) (t : string) :
  is_underscore c = false -> has_snake (String c t) = has_snake t.
Proof.
  intros H. destruct t as [|e t']; [reflexivity|].
  rewrite has_snake_cons2, H. reflexivity.
Qed.

Lemma camelAlias_pair (s : string) :
  (has_snake (camelAlias s) = false
   /\ String.length (camelAlias s) <= String.length s
   /\ (has_snake s = false -> camelAlias s = s)
   /\ (has_snake s = true -> String.length (camelAlias s) < String.length s))
  /\ forall c,
       has_snake (camelAlias (String c s)) = false
       /\ String.length (camelAlias (String c s)) <= String.length (String c s)
       /\ (has_snake (String c s) = false -> camelAlias (String c s) = String c s)
       /\ (has_snake (String c s) = true ->
           String.length (camelAlias (String c s)) < String.length (String c s)).
Proof.
  induction s as [|d r IH].
  - split.
    + repeat split; try reflexivity; try discriminate.
    + intros c. repeat split; try reflexivity; try discriminate.
  - destruct IH as [(R1 & R2 & R3 & R4) IH]. split; [apply IH|].
    intros c. destruct (IH d) as (D1 & D2 & D3 & D4).
    rewrite camelAlias_cons2, has_snake_cons2.
    destruct (is_underscore c && is_lower d) eqn:E.
    + apply andb_prop in E. destruct E as [_ L].
      destruct (upper_char_not_lower d L) as [_ U].
      split; [|split; [|split]].
      * rewrite (has_snake_cons _ _ U). exact R1.
      * simpl. simpl in R2. lia.
      * discriminate.
      * intros _. simpl. simpl in R2. lia.
    + cbn [orb]. split; [|split; [|split]].
      * destruct (camelAlias (String d r)) as [|h t] eqn:C; [reflexivity|].
        rewrite has_snake_cons2.
        assert (X : is_underscore c && is_lower h = false).
        { destruct (is_underscore c) eqn:Uc; [|reflexivity].
          cbn [andb] in E. destruct (camelAlias_head d r E) as (h' & t' & C' & Hh).
          rewrite C in C'. injection C' as -> ->. exact Hh. }
        rewrite X. exact D1.
      * simpl. simpl in D2. lia.
      * intros H. now rewrite D3.
      * intros H. specialize (D4 H). simpl. simpl in D4. lia.
Qed.

(** X17: The alias has no underscore followed by a lower-case letter left,
    so that taking the alias of an alias changes nothing; and a name
    is its own alias exactly when it has no such underscore, which is
    when [registerAllTools] registers no camel-case alias for it. *)
Theorem camelAlias_idempotent :
  forall name : string,
    has_snake (camelAlias name) = false
    /\ camelAlias (camelAlias name) = camelAlias name
    /\ (camelAlias name = name <-> has_snake name = false).
Proof.
  intros name.
  destruct (camelAlias_pair name) as [(R1 & _ & R3 & R4) _].
  split; [exact R1|]. split.
  - destruct (camelAlias_pair (camelAlias name)) as [(_ & _ & Q & _) _]. now apply Q.
  - split; [|exact R3].
    intros E. destruct (has_snake name) eqn:S; [|reflexivity].
    specialize (R4 eq_refl). rewrite E in R4. lia.
Qed.

Lemma legacyPrefix_length (s : string) :
  String.length (legacyPrefix ++ s) = 19 + String.length s.
Proof.
  rewrite length_append. reflexivity.
Qed.

Lemma camelAlias_legacyPrefix (rest : string) :
  camelAlias (legacyPrefix ++ rest) = legacyPrefix ++ camelAlias rest.
Proof.
  destruct rest; reflexivity.
Qed.

Lemma name_not_prefixed_alias (n : nat) :
  forall name : string,
    String.length name <= n -> legacyPrefix ++ camelAlias name <> name.
Proof.
  induction n as [|n IH]; intros name Hlen H.
  - apply (f_equal String.length) in H. rewrite legacyPrefix_length in H. lia.
  - assert (E : legacyPrefix ++ camelAlias (camelAlias name) = camelAlias name).
    { rewrite <- camelAlias_legacyPrefix. now rewrite H. }
    revert E. apply IH.
    apply (f_equal String.length) in H. rewrite legacyPrefix_length in H. lia.
Qed.

(** X18: The names under which a tool is registered are pairwise distinct:
    the name, its camel-case alias when it differs from the name, and
    both with the legacy prefix. *)
Theorem registered_names_distinct :
  forall name : string, NoDup (registered_names name).
Proof.
  intros name. unfold registered_names.
  destruct (camelAlias_pair name) as [(_ & L & _ & _) _].
  pose proof (legacyPrefix_length name) as P1.
  pose proof (legacyPrefix_length (camelAlias name)) as P2.
  assert (A : forall a b : string, String.length a <> String.length b -> a <> b)
    by (intros a b H ->; now apply H).
  destruct (String.eqb_spec (camelAlias name) name) as [E|N]; cbn [app].
  - repeat constructor; cbn [In]; [|tauto].
    intros [H|[]]. revert H. apply A. lia.
  - repeat constructor; cbn [In]; try tauto.
    + intros [H|[H|[H|[]]]].
      * now apply N.
      * revert H. apply A. lia.
      * revert H. now apply (name_not_prefixed_alias (String.length name)).
    + intros [H|[H|[]]].
      * revert H. apply A. lia.
      * revert H. apply A. lia.
    + intros [H|[]]. apply N. unfold legacyPrefix in H. simpl in H.
      now injection H.
Qed.


(** ** Countries in the tool on monthly trade by industry group *)

Lemma word_char_not_space (a : ascii) :
  is_word_char a = true ->
  is_space1 a = false
  /\ (forall x, is_space2 a x = false) /\ (forall x, is_space2 x a = false)
  /\ (forall x y, is_space3 a x y = false) /\ (forall x y, is_space3 x y a = false).
Proof.
  destruct a as [[] [] [] [] [] [] [] []]; intros H; try discriminate H;
    (split; [reflexivity|]); (split; [reflexivity|]);
    (split; [intros x; unfold is_space2; apply andb_false_r|]);
    (split; [reflexivity|]);
    intros x y; unfold is_space3; cbn;
    repeat rewrite ?andb_false_r, ?orb_false_r; reflexivity.
Qed.

Lemma list_ascii_of_append (a b : string) :
  list_ascii_of_string (a ++ b) = (list_ascii_of_string a ++ list_ascii_of_string b)%list.
Proof.
  induction a as [|c a IH]; simpl; [reflexivity | now rewrite IH].
Qed.

Lemma list_ascii_of_spaces (n : nat) :
  list_ascii_of_string (spaces n) = repeat " "%char n.
Proof.
  induction n as [|n IH]; simpl; [reflexivity | now rewrite IH].
Qed.

Lemma trimStart_spaces (n : nat) (l : list ascii) :
  trimStart (repeat " "%char n ++ l) = trimStart l.
Proof.
  induction n as [|n IH]; [reflexivity | exact IH].
Qed.

Lemma trimEnd_rev_spaces (n : nat) (l : list ascii) :
  trimEnd_rev (repeat " "%char n ++ l) = trimEnd_rev l.
Proof.
  induction n as [|n IH]; [reflexivity | exact IH].
Qed.

Lemma trimStart_word (a : ascii) (l : list ascii) :
  is_word_char a = true -> trimStart (a :: l) = a :: l.
Proof.
  intros H. destruct (word_char_not_space a H) as (S1 & S2 & _ & S3 & _).
  cbn [trimStart]. rewrite S1.
  destruct l as [|b l]; [reflexivity|]. rewrite S2.
  destruct l as [|c l]; [reflexivity|]. now rewrite S3.
Qed.

Lemma trimEnd_rev_word (a : ascii) (l : list ascii) :
  is_word_char a = true -> trimEnd_rev (a :: l) = a :: l.
Proof.
  intros H. destruct (word_char_not_space a H) as (S1 & _ & S2 & _ & S3).
  cbn [trimEnd_rev]. rewrite S1.
  destruct l as [|b l]; [reflexivity|]. rewrite S2.
  destruct l as [|c l]; [reflexivity|]. now rewrite S3.
Qed.

Lemma all_chars_Forall (test : ascii -> bool) (s : string) :
  all_chars test s = true -> Forall (fun a => test a = true) (list_ascii_of_string s).
Proof.
  induction s as [|a r IH]; simpl; [constructor|].
  intros H. apply andb_prop in H. destruct H as [H1 H2]. constructor; auto.
Qed.

Lemma trim_word (val : string) (n m : nat) :
  is_letters_or_underscores val = true ->
  trim (spaces n ++ val ++ spaces m) = val.
Proof.
  intros H. unfold is_letters_or_underscores in H. apply andb_prop in H.
  destruct H as [Hne Hall]. apply all_chars_Forall in Hall.
  unfold trim. rewrite !list_ascii_of_append, !list_ascii_of_spaces, trimStart_spaces.
  rewrite <- (string_of_list_ascii_of_string val) at 2.
  destruct (list_ascii_of_string val) as [|a l] eqn:E.
  - destruct val; [discriminate Hne | discriminate E].
  - f_equal. cbn [app]. rewrite trimStart_word by (now inversion Hall).
    change (a :: (l ++ repeat " "%char m))%list with ((a :: l) ++ repeat " "%char m)%list.
    rewrite rev_app_distr, rev_repeat, trimEnd_rev_spaces.
    assert (R : exists b t, rev (a :: l) = b :: t /\ is_word_char b = true).
    { destruct (rev (a :: l)) as [|b t] eqn:R.
      - apply (f_equal (@List.length ascii)) in R. rewrite length_rev in R. discriminate R.
      - exists b, t. split; [reflexivity|].
        rewrite Forall_forall in Hall. apply Hall. apply in_rev. rewrite R. now left. }
    destruct R as (b & t & R & Hb). rewrite R, trimEnd_rev_word by assumption.
    rewrite <- R. apply rev_involutive.
Qed.

Lemma is_letter_code (a : ascii) : is_letter a = true <-> letter_code a.
Proof.
  unfold is_letter, letter_code.
  rewrite orb_true_iff, !andb_true_iff, !Nat.leb_le. tauto.
Qed.

Lemma is_word_char_code (a : ascii) : is_word_char a = true <-> word_code a.
Proof.
  unfold is_word_char, word_code.
  rewrite orb_true_iff, is_letter_code, Nat.eqb_eq. tauto.
Qed.

Lemma upper_char_upper_of (a : ascii) : upper_of a (upper_char a).
Proof.
  unfold upper_of, upper_char.
  destruct (Nat.leb 97 (nat_of_ascii a) && Nat.leb (nat_of_ascii a) 122); [|reflexivity].
  apply nat_ascii_embedding. pose proof (nat_ascii_bounded a). lia.
Qed.

Lemma toUpperCase_upper_of (s : string) :
  Forall2 upper_of (list_ascii_of_string s) (list_ascii_of_string (toUpperCase s)).
Proof.
  induction s as [|a r IH]; simpl; constructor; [apply upper_char_upper_of | exact IH].
Qed.

Lemma Forall_all_chars (test : ascii -> bool) (s : string) :
  Forall (fun a => test a = true) (list_ascii_of_string s) -> all_chars test s = true.
Proof.
  induction s as [|a r IH]; simpl; [reflexivity|].
  intros H. inversion H; subst. now rewrite H2, IH.
Qed.

Lemma is_two_letters_spec (val : string) :
  is_two_letters val = true
  <-> String.length val = 2 /\ Forall letter_code (list_ascii_of_string val).
Proof.
  destruct val as [|a [|b [|c r]]]; simpl.
  - split; [discriminate | intros [H _]; discriminate H].
  - split; [discriminate | intros [H _]; discriminate H].
  - rewrite andb_true_iff, !is_letter_code. split.
    + intros [Ha Hb]. split; [reflexivity|].
      constructor; [assumption|]. constructor; [assumption | constructor].
    + intros [_ H]. inversion H as [|? ? Ha H']; subst. inversion H'; subst. tauto.
  - split; [discriminate | intros [H _]; discriminate H].
Qed.

(** X19: A country given as letters and underscores is read whatever its
    case and the blanks around it: the filter is on [COUNTRY_ID] when
    the country is two letters and on [AREA_ID] otherwise, and it asks
    for the country without the blanks, each lower-case letter
    replaced by the upper-case one.  [ us ] gives [COUNTRY_ID] equal
    to [US]. *)
Theorem country_code_normalized :
  forall (val : string) (n m : nat),
    val <> "" ->
    Forall word_code (list_ascii_of_string val) ->
    exists key code : string,
      country_entry (spaces n ++ val ++ spaces m) = (key, VObject [("eq", VString code)])
      /\ Forall2 upper_of (list_ascii_of_string val) (list_ascii_of_string code)
      /\ (String.length val = 2 /\ Forall letter_code (list_ascii_of_string val) ->
          key = "COUNTRY_ID")
      /\ (~ (String.length val = 2 /\ Forall letter_code (list_ascii_of_string val)) ->
          key = "AREA_ID")
      /\ country_entry " us " = ("COUNTRY_ID", VObject [("eq", VString "US")])
      /\ country_entry "Tw" = ("COUNTRY_ID", VObject [("eq", VString "TW")])
      /\ country_entry "  Europe_West " = ("AREA_ID", VObject [("eq", VString "EUROPE_WEST")])
      /\ country_entry "a_" = ("AREA_ID", VObject [("eq", VString "A_")]).
Proof.
  intros val n m Hne Hall.
  assert (W : is_letters_or_underscores val = true).
  { unfold is_letters_or_underscores.
    destruct (String.eqb_spec val ""); [contradiction|]. cbn [negb andb].
    apply Forall_all_chars. rewrite Forall_forall in *.
    intros a Ha. apply is_word_char_code. now apply Hall. }
  unfold country_entry. rewrite (trim_word val n m W), W.
  destruct (is_two_letters val) eqn:T.
  - exists "COUNTRY_ID", (toUpperCase val).
    split; [reflexivity|]. split; [apply toUpperCase_upper_of|].
    split; [reflexivity|]. split; [|repeat split; reflexivity].
    intros N. exfalso. apply N. now apply is_two_letters_spec.
  - exists "AREA_ID", (toUpperCase val).
    split; [reflexivity|]. split; [apply toUpperCase_upper_of|].
    split; [|split; [reflexivity | repeat split; reflexivity]].
    intros H. apply is_two_letters_spec in H. congruence.
Qed.

Lemma country_code_normalized_witness :
  exists key code : string,
    country_entry (spaces 1 ++ "us" ++ spaces 2) = (key, VObject [("eq", VString code)])
    /\ Forall2 upper_of (list_ascii_of_string "us") (list_ascii_of_string code)
    /\ key = "COUNTRY_ID".
Proof.
  destruct (country_code_normalized "us" 1 2) as (key & code & E & U & K & _).
  - discriminate.
  - apply Forall_cons; [|apply Forall_cons; [|apply Forall_nil]];
      unfold word_code, letter_code; vm_compute; lia.
  - exists key, code. split; [exact E|]. split; [exact U|].
    apply K. split; [reflexivity|].
    apply Forall_cons; [|apply Forall_cons; [|apply Forall_nil]];
      unfold letter_code; vm_compute; lia.
Defined.

Lemma trim_spaces (n : nat) : trim (spaces n) = "".
Proof.
  unfold trim. rewrite list_ascii_of_spaces.
  rewrite <- (app_nil_r (repeat " "%char n)), trimStart_spaces. reflexivity.
Qed.

(** X20: A country made of blanks only is not taken as absent: the filter
    gets an [or] between a country name and an area name that are both
    the empty string. *)
Theorem blank_country_filters_on_empty_names :
  forall (params : GroupParams.t) (n : nat),
    GroupParams.country params = Some (spaces (S n)) ->
    In ("or", VArray [ VObject [("COUNTRY_COMM_ZH", VObject [("eq", VString "")])];
                       VObject [("AREA_NM", VObject [("eq", VString "")])] ])
       (filter_entries params)
    /\ exists entry entries,
         buildFilterFromParams params = VObject (entry :: entries).
Proof.
  intros params n E.
  assert (I : In ("or", VArray [ VObject [("COUNTRY_COMM_ZH", VObject [("eq", VString "")])];
                                 VObject [("AREA_NM", VObject [("eq", VString "")])] ])
                 (filter_entries params)).
  { unfold filter_entries. rewrite E. repeat (apply in_or_app; right).
    cbn [spaces String.eqb]. cbn -[country_entry spaces]. left.
    unfold country_entry. change (String " " (spaces n)) with (spaces (S n)).
    rewrite trim_spaces. reflexivity. }
  split; [exact I|].
  unfold buildFilterFromParams. destruct (filter_entries params) as [|e r]; [destruct I|].
  now exists e, r.
Qed.

Lemma blank_country_filters_on_empty_names_witness :
  In ("or", VArray [ VObject [("COUNTRY_COMM_ZH", VObject [("eq", VString "")])];
                     VObject [("AREA_NM", VObject [("eq", VString "")])] ])
     (filter_entries (GroupParams.mk None None None (Some (spaces 2)) None None))
  /\ exists entry entries,
       buildFilterFromParams (GroupParams.mk None None None (Some (spaces 2)) None None)
       = VObject (entry :: entries).
Proof.
  apply (blank_country_filters_on_empty_names _ 1). reflexivity.
Defined.

(** ** The schema cache *)

Lemma JSON_image_defined (v : value) : defined_everywhere v = true -> JSON_image v = v.
Proof.
  induction v as [| |n|b|s|items IH|entries IH] using value_nested_ind;
    cbn [defined_everywhere JSON_image]; intros H; try reflexivity; try discriminate H.
  - f_equal. induction IH as [|x r Hx Hr IHr]; [reflexivity|].
    cbn [forallb] in H. apply andb_prop in H. destruct H as [H1 H2].
    cbn [map]. f_equal; auto.
  - f_equal. induction IH as [|[k x] r Hx Hr IHr]; [reflexivity|].
    cbn [forallb snd] in H. apply andb_prop in H. destruct H as [H1 H2].
    cbn [flat_map fst snd]. cbn [snd] in Hx. rewrite (Hx H1), (IHr H2).
    destruct x; try reflexivity. discriminate H1.
Qed.

(** X21: A schema that was stored is returned as long as its age is below
    the time to live, from the memory: the result is the stored value
    itself and the state does not change, whatever the files are and
    whether the write to the disk went through. *)
Theorem cached_schema_returned_within_ttl :
  forall (schema : value) (set_options get_options : CacheOptions.t)
         (stored now_memory now_file : Z) (disk_ok : bool) (st : CacheState.t),
    truthy schema = true ->
    stored <> 0%Z ->
    (now_memory - stored < effective_ttl get_options)%Z ->
    getCachedSchema get_options now_memory now_file
      (setCachedSchema schema set_options stored disk_ok st)
    = (schema, setCachedSchema schema set_options stored disk_ok st).
Proof.
  intros schema so go t nm nf disk st Hs Ht Hage.
  unfold getCachedSchema, setCachedSchema.
  cbn [CacheState.memoryCache CacheState.memoryCacheTimestamp timestamp_set].
  rewrite Hs. destruct (Z.eqb_spec t 0); [contradiction|]. cbn [negb andb].
  destruct (Z.ltb_spec (nm - t) (effective_ttl go)); [reflexivity | lia].
Qed.

Lemma cached_schema_returned_within_ttl_witness :
  getCachedSchema CacheOptions.empty 1700000500000 1700000500001
    (setCachedSchema small_schema CacheOptions.empty 1700000000000 false fresh_state)
  = (small_schema,
     setCachedSchema small_schema CacheOptions.empty 1700000000000 false fresh_state).
Proof.
  apply cached_schema_returned_within_ttl.
  - reflexivity.
  - discriminate.
  - reflexivity.
Defined.

(** X22: Once the age of a stored schema has reached the time to live, it
    is not returned any more: the memory is emptied, the file written
    with it is as old and is not used, and the result is [null]. *)
Theorem cached_schema_expires :
  forall (schema : value) (options : CacheOptions.t)
         (stored now_memory now_file : Z) (st : CacheState.t),
    truthy schema = true ->
    stored <> 0%Z ->
    (effective_ttl options <= now_memory - stored)%Z ->
    (now_memory <= now_file)%Z ->
    getCachedSchema options now_memory now_file
      (setCachedSchema schema options stored true st)
    = (VNull, clearCache (setCachedSchema schema options stored true st)).
Proof.
  intros schema o t nm nf st Hs Ht Hage Hclock.
  unfold getCachedSchema, setCachedSchema.
  cbn [CacheState.memoryCache CacheState.memoryCacheTimestamp timestamp_set].
  rewrite Hs. destruct (Z.eqb_spec t 0); [contradiction|]. cbn [negb andb].
  destruct (Z.ltb_spec (nm - t) (effective_ttl o)); [lia|].
  unfold read_file_cache, clearCache. cbn [CacheState.files].
  rewrite String.eqb_refl. cbn [written_file CacheFile._cachedAt].
  destruct (Z.eqb_spec t 0); [contradiction|]. cbn [negb andb].
  destruct (Z.ltb_spec (nf - t) (effective_ttl o)); [lia | reflexivity].
Qed.

Lemma cached_schema_expires_witness :
  getCachedSchema CacheOptions.empty 1700086400000 1700086400001
    (setCachedSchema small_schema CacheOptions.empty 1700000000000 true fresh_state)
  = (VNull,
     clearCache (setCachedSchema small_schema CacheOptions.empty 1700000000000 true
                   fresh_state)).
Proof.
  apply cached_schema_expires.
  - reflexivity.
  - discriminate.
  - unfold effective_ttl, DEFAULT_TTL_MS. simpl. lia.
  - lia.
Defined.

(** X23: [clearCache] empties the memory and leaves the file: after a store
    that reached the disk and a [clearCache], the two variables are
    [null] and the file holds the time of the store and the schema (a
    schema without [undefined] in it, which JSON keeps as it is); a
    call within the time to live returns the schema and puts it back
    in the memory with the time of the store, not of the reading; it
    is the file that gives it: when the store did not reach the disk
    and there is no file, the same call returns [null]. *)
Theorem clearCache_keeps_the_file :
  forall (schema : value) (options : CacheOptions.t)
         (stored now_memory now_file : Z) (st : CacheState.t),
    defined_everywhere schema = true ->
    stored <> 0%Z ->
    (now_file - stored < effective_ttl options)%Z ->
    CacheState.memoryCache (clearCache (setCachedSchema schema options stored true st))
    = VNull
    /\ CacheState.memoryCacheTimestamp
         (clearCache (setCachedSchema schema options stored true st))
       = None
    /\ CacheState.files (clearCache (setCachedSchema schema options stored true st))
         (effective_file options)
       = Some (Written (CacheFile.mk stored schema))
    /\ fst (getCachedSchema options now_memory now_file
              (clearCache (setCachedSchema schema options stored true st)))
       = schema
    /\ CacheState.memoryCache
         (snd (getCachedSchema options now_memory now_file
                 (clearCache (setCachedSchema schema options stored true st))))
       = schema
    /\ CacheState.memoryCacheTimestamp
         (snd (getCachedSchema options now_memory now_file
                 (clearCache (setCachedSchema schema options stored true st))))
       = Some stored
    /\ (CacheState.files st (effective_file options) = None ->
        getCachedSchema options now_memory now_file
          (clearCache (setCachedSchema schema options stored false st))
        = (VNull, clearCache (setCachedSchema schema options stored false st))).
Proof.
  intros schema o t nm nf st Hd Ht Hage.
  assert (W : written_file t schema = Written (CacheFile.mk t schema)).
  { unfold written_file. rewrite (JSON_image_defined schema Hd).
    destruct schema; reflexivity. }
  assert (G : getCachedSchema o nm nf (clearCache (setCachedSchema schema o t true st))
              = (schema, setCachedSchema schema o t true st)).
  { unfold getCachedSchema, clearCache, setCachedSchema.
    cbn [CacheState.memoryCache CacheState.memoryCacheTimestamp CacheState.files
         truthy andb].
    unfold read_file_cache. cbn [CacheState.files].
    rewrite String.eqb_refl, W. cbn [CacheFile._cachedAt CacheFile.schema].
    destruct (Z.eqb_spec t 0); [contradiction|]. cbn [negb andb].
    destruct (Z.ltb_spec (nf - t) (effective_ttl o)); [reflexivity | lia]. }
  split; [reflexivity|]. split; [reflexivity|]. split.
  - unfold clearCache, setCachedSchema. cbn [CacheState.files].
    now rewrite String.eqb_refl, W.
  - rewrite G. split; [reflexivity|]. split; [reflexivity|]. split; [reflexivity|].
    intros Hf. unfold getCachedSchema, clearCache, setCachedSchema.
    cbn [CacheState.memoryCache CacheState.memoryCacheTimestamp CacheState.files
         truthy andb].
    unfold read_file_cache. cbn [CacheState.files]. now rewrite Hf.
Qed.

Lemma clearCache_keeps_the_file_witness :
  fst (getCachedSchema CacheOptions.empty 1700000500000 1700000500001
         (clearCache (setCachedSchema small_schema CacheOptions.empty 1700000000000 true
                        fresh_state)))
  = small_schema
  /\ getCachedSchema CacheOptions.empty 1700000500000 1700000500001
       (clearCache (setCachedSchema small_schema CacheOptions.empty 1700000000000 false
                      fresh_state))
     = (VNull,
        clearCache (setCachedSchema small_schema CacheOptions.empty 1700000000000 false
                      fresh_state)).
Proof.
  destruct (clearCache_keeps_the_file small_schema CacheOptions.empty 1700000000000
              1700000500000 1700000500001 fresh_state)
    as (_ & _ & _ & R & _ & _ & N).
  - reflexivity.
  - discriminate.
  - reflexivity.
  - split; [exact R | apply N; reflexivity].
Defined.

(** X24: With an empty memory, a cache file that is missing or that
    [JSON.parse] refuses is a miss and no error: the result is [null]
    and the state is as before. *)
Theorem unusable_file_is_a_miss :
  forall (options : CacheOptions.t) (now_memory now_file : Z) (st : CacheState.t),
    CacheState.memoryCache st = VNull ->
    (CacheState.files st (effective_file options) = None
     \/ CacheState.files st (effective_file options) = Some Unparsable) ->
    getCachedSchema options now_memory now_file st = (VNull, st).
Proof.
  intros o nm nf st Hm Hf. unfold getCachedSchema. rewrite Hm. cbn [truthy andb].
  unfold read_file_cache. destruct Hf as [-> | ->]; reflexivity.
Qed.

Lemma unusable_file_is_a_miss_witness :
  getCachedSchema CacheOptions.empty 1700000500000 1700000500001 fresh_state
  = (VNull, fresh_state).
Proof.
  apply unusable_file_is_a_miss; [reflexivity | now left].
Defined.

(** ** The configuration *)

(** X25: [validateConfig] returns exactly when the endpoint and the
    subscription key are both set to something; otherwise it raises an
    error whose message names each variable that is not set. *)
Theorem validateConfig_spec :
  forall config : ServerConfig.t,
    (validateConfig config = Return tt
     <-> ServerConfig.graphqlEndpoint config <> ""
         /\ ServerConfig.subscriptionKey config <> "")
    /\ (validateConfig config = Return tt
        \/ exists message : string,
             validateConfig config = Throw (Error message)
             /\ (ServerConfig.graphqlEndpoint config = "" ->
                 contains message "APIM_GRAPHQL_ENDPOINT")
             /\ (ServerConfig.subscriptionKey config = "" ->
                 contains message "APIM_SUBSCRIPTION_KEY")).
Proof.
  intros config. unfold validateConfig, missing_variables.
  destruct (String.eqb_spec (ServerConfig.graphqlEndpoint config) "") as [E|E],
           (String.eqb_spec (ServerConfig.subscriptionKey config) "") as [K|K];
    cbn [app]; split;
    try (split; [discriminate | intros [? ?]; congruence]);
    try (split; [intros _; split; assumption | reflexivity]).
  - right. eexists. split; [reflexivity|]. split; intros _.
    + now exists "Missing required environment variables: ",
        (", APIM_SUBSCRIPTION_KEY. Please set them in .env file or Azure Function App Application Settings.").
    + now exists "Missing required environment variables: APIM_GRAPHQL_ENDPOINT, ",
        (". Please set them in .env file or Azure Function App Application Settings.").
  - right. eexists. split; [reflexivity|]. split; [intros _ | congruence].
    now exists "Missing required environment variables: ",
      (". Please set them in .env file or Azure Function App Application Settings.").
  - right. eexists. split; [reflexivity|]. split; [congruence | intros _].
    now exists "Missing required environment variables: ",
      (". Please set them in .env file or Azure Function App Application Settings.").
  - now left.
Qed.
